(** * A media track endpoint: shallow embedding of [src/impl/track.cpp]

    The development follows the C++ source function by function.  Code of
    the repository that [track.cpp] calls but that lives in other files
    (the RTP header views of [rtp.hpp], the receive queue, the media
    description, the channel base class) is either taken as a parameter of
    the section that models [Track], or modelled from the specification; the
    latter definitions say so in their doc comment. *)

From Stdlib Require Import ZArith List Bool String Ascii Lia Arith.
Import ListNotations.
Local Open Scope Z_scope.

(** ** Machine integers *)

(** [size_t] arithmetic is arithmetic modulo [2^64]. *)
Definition SIZE_MAX1 : Z := 2 ^ 64.
Definition size_t_wrap (z : Z) : Z := z mod SIZE_MAX1.
Definition size_t_sub (a b : Z) : Z := size_t_wrap (a - b).
Definition size_t_add (a b : Z) : Z := size_t_wrap (a + b).
Definition uint16_cast (z : Z) : Z := z mod 2 ^ 16.

(** ** Byte buffers *)

(** [rtc::binary] is [std::vector<std::byte>]; a byte is a [Z] in 0..255. *)
Definition binary := list Z.

Definition size (b : binary) : Z := Z.of_nat (List.length b).

Definition bytes_of_string (s : string) : binary :=
  map (fun c => Z.of_N (N_of_ascii c)) (list_ascii_of_string s).

(** Accesses to a buffer are checked: [None] stands for an access outside
    the buffer, which the C++ source leaves undefined. *)
Module Buf.

Definition read8 (b : binary) (off : Z) : option Z :=
  if off <? 0 then None else nth_error b (Z.to_nat off).

(** Big-endian 16-bit read ([ntohs] of a stored [uint16_t]). *)
Definition read16 (b : binary) (off : Z) : option Z :=
  match read8 b off, read8 b (off + 1) with
  | Some hi, Some lo => Some (Z.lor (Z.shiftl hi 8) lo)
  | _, _ => None
  end.

Definition write8 (b : binary) (off v : Z) : option binary :=
  if (0 <=? off) && (off <? size b)
  then Some (firstn (Z.to_nat off) b ++ v :: skipn (S (Z.to_nat off)) b)
  else None.

(** Big-endian 16-bit write ([htons] before the store). *)
Definition write16 (b : binary) (off v : Z) : option binary :=
  match write8 b off (Z.land (Z.shiftr v 8) 255) with
  | Some b1 => write8 b1 (off + 1) (Z.land v 255)
  | None => None
  end.

Fixpoint write_bytes (b : binary) (off : Z) (vs : binary) : option binary :=
  match vs with
  | [] => Some b
  | v :: vs' =>
      match write8 b off v with
      | Some b1 => write_bytes b1 (off + 1) vs'
      | None => None
      end
  end.

(** [v.insert(v.begin() + pos, count, value)]; the position has to lie
    within [begin(), end()]. *)
Definition insert (b : binary) (pos count v : Z) : option binary :=
  if (0 <=? pos) && (pos <=? size b)
  then Some (firstn (Z.to_nat pos) b ++ repeat v (Z.to_nat count)
               ++ skipn (Z.to_nat pos) b)
  else None.

End Buf.

(** ** RTP wire format *)

(** Modelled from the spec: the header views [RtpHeader] and
    [RtpExtensionHeader] are defined in [rtp.hpp], not in [track.cpp].  The spec
    fixes the wire format as the RTP fixed header followed by the one-byte
    header-extension block with profile id [0xBEDE]; the views below read
    and write that layout at byte offsets of the packet buffer.  A view
    pointer is the offset of its first byte. *)
Module Rtp.

(** The RTP fixed header is 12 bytes long; the CSRC list follows it. *)
Definition offsetof_csrc : Z := 12.
(** Modelled from the spec: the spec reads [sizeof(RtpHeader)] as "the
    fixed header size".  The tagger below takes the value as a parameter;
    this one instantiates it on concrete packets. *)
Definition sizeof_RtpHeader : Z := 12.
(** Profile id and length, 16 bits each. *)
Definition sizeof_RtpExtensionHeader : Z := 4.
Definition sizeof_SSRC : Z := 4.

(** The "extension present" flag is bit 4 of the first byte. *)
Definition extension (b : binary) : option bool :=
  option_map (fun first => Z.testbit first 4) (Buf.read8 b 0).

Definition csrcCount (b : binary) : option Z :=
  option_map (fun first => Z.land first 15) (Buf.read8 b 0).

(** Size of the fixed header with its CSRC list. *)
Definition getSize (b : binary) : option Z :=
  option_map (fun cc => offsetof_csrc + sizeof_SSRC * cc) (csrcCount b).

(** The extension header starts right after the CSRC list. *)
Definition getExtensionHeader (b : binary) : option Z := getSize b.

Definition setExtension (b : binary) (x : bool) : option binary :=
  match Buf.read8 b 0 with
  | Some first =>
      Buf.write8 b 0 (Z.lor (Z.land first (255 - 16)) (if x then 16 else 0))
  | None => None
  end.

Definition profileSpecificId (b : binary) (ext : Z) : option Z :=
  Buf.read16 b ext.
Definition headerLength (b : binary) (ext : Z) : option Z :=
  Buf.read16 b (ext + 2).
Definition setProfileSpecificId (b : binary) (ext v : Z) : option binary :=
  Buf.write16 b ext v.
Definition setHeaderLength (b : binary) (ext v : Z) : option binary :=
  Buf.write16 b (ext + 2) v.

(** Size of the extension body in bytes: the length field counts 32-bit
    words. *)
Definition extGetSize (b : binary) (ext : Z) : option Z :=
  option_map (fun n => n * 4) (headerLength b ext).
Definition getBody (ext : Z) : Z := ext + sizeof_RtpExtensionHeader.

(** One-byte-header element: [id] in the high nibble, [length - 1] in the
    low nibble, then the value.  Ids outside 1..14, empty values, values
    longer than 16 bytes and elements that would not fit the body are not
    written. *)
Definition writeOneByteHeader (b : binary) (ext offset id : Z)
    (value : binary) : option binary :=
  match extGetSize b ext with
  | None => None
  | Some bodySize =>
      if (id =? 0) || (14 <? id) || (size value =? 0) || (16 <? size value)
         || (bodySize <? offset + 1 + size value)
      then Some b
      else
        match Buf.write8 b (getBody ext + offset)
                (Z.lor (Z.shiftl id 4) (size value - 1)) with
        | Some b1 => Buf.write_bytes b1 (getBody ext + offset + 1) value
        | None => None
        end
  end.

(** Elements of a one-byte-header extension body, as (id, value) pairs;
    a zero byte is padding, id 15 stops the parse. *)
Fixpoint parseOneByteElements (fuel : nat) (body : binary)
    : list (Z * binary) :=
  match fuel with
  | O => []
  | S fuel' =>
      match body with
      | [] => []
      | h :: rest =>
          if h =? 0 then parseOneByteElements fuel' rest
          else
            let id := Z.shiftr h 4 in
            let len := Z.to_nat (Z.land h 15 + 1) in
            if id =? 15 then []
            else (id, firstn len rest)
                   :: parseOneByteElements fuel' (skipn len rest)
      end
  end.

(** The extension block of a packet, when it has one: profile id and the
    elements of its body. *)
Definition parseExtension (b : binary) : option (Z * list (Z * binary)) :=
  match extension b, getExtensionHeader b with
  | Some true, Some ext =>
      match profileSpecificId b ext, extGetSize b ext with
      | Some pid, Some bodySize =>
          let body := firstn (Z.to_nat bodySize)
                        (skipn (Z.to_nat (getBody ext)) b) in
          Some (pid, parseOneByteElements (List.length body) body)
      | _, _ => None
      end
  | _, _ => None
  end.

(** Modelled from the spec: a packet is "structurally an RTCP packet" when
    its payload type falls in the range reserved for RTCP when RTP and
    RTCP share a transport (64..95); shorter than 8 bytes it is not.
    Used to instantiate the [IsRtcp] parameter on concrete packets. *)
Definition IsRtcp_by_payload_type (b : binary) : bool :=
  if size b <? 8 then false
  else match Buf.read8 b 1 with
       | Some second =>
           let payloadType := Z.land second 127 in
           (64 <=? payloadType) && (payloadType <=? 95)
       | None => false
       end.

End Rtp.

(** ** Results of operations *)

Definition bind_opt {A B} (o : option A) (f : A -> option B) : option B :=
  match o with Some a => f a | None => None end.

Declare Scope opt_scope.
Delimit Scope opt_scope with opt.
Notation "x <-? c ;; k" := (bind_opt c (fun x => k))
  (at level 61, c at next level, right associativity) : opt_scope.

(** ** ExtensionTagger: [Track::tagWithMid] on the packet bytes *)

Section Tagger.

(** [IsRtcp] of [rtp.hpp], and the size of its [RtpHeader] struct. *)
Variable IsRtcp : binary -> bool.
Variable sizeof_RtpHeader : Z.

(** The body of [Track::tagWithMid], on the bytes of [*message], given the
    track's [mSdesMidExtId] and [mMediaDescription.mid()].  The pointers
    [header] and [extHeader] are offsets into the buffer and stay what they
    are across [insert].  [None]: the source accesses memory outside the
    packet buffer. *)
Definition tagWithMid_bytes (mSdesMidExtId : option Z) (mid : string)
    (message : binary) : option binary :=
  if IsRtcp message then Some message
  else
    match mSdesMidExtId with
    | None => Some message
    | Some extId =>
        if size message <? sizeof_RtpHeader then
          let sdesMidExtLength := size_t_add 1 (size (bytes_of_string mid)) in
          (* header = reinterpret_cast<RtpHeader*>(message->data()) *)
          (x <-? Rtp.extension message ;;
           if x : bool then
             extHeader <-? Rtp.getExtensionHeader message ;;
             pid <-? Rtp.profileSpecificId message extHeader ;;
             if negb (pid =? 0xbede) then Some message
             else
               extHeaderLength <-? Rtp.headerLength message extHeader ;;
               let newExtHeaderLength :=
                 size_t_add (size_t_add extHeaderLength sdesMidExtLength) 3 / 4 in
               pos <-? Rtp.getSize message ;;
               m1 <-? Buf.insert message pos
                        (size_t_sub newExtHeaderLength extHeaderLength) 0 ;;
               m2 <-? Rtp.setHeaderLength m1 extHeader
                        (uint16_cast newExtHeaderLength) ;;
               Rtp.writeOneByteHeader m2 extHeader extHeaderLength extId
                 (bytes_of_string mid)
           else
             let extHeaderLength := size_t_add sdesMidExtLength 3 / 4 in
             pos <-? Rtp.getSize message ;;
             m1 <-? Buf.insert message pos
                      (size_t_add Rtp.sizeof_RtpExtensionHeader extHeaderLength) 0 ;;
             m2 <-? Rtp.setExtension m1 true ;;
             extHeader <-? Rtp.getExtensionHeader m2 ;;
             m3 <-? Rtp.setProfileSpecificId m2 extHeader 0xbede ;;
             m4 <-? Rtp.setHeaderLength m3 extHeader
                      (uint16_cast extHeaderLength) ;;
             Rtp.writeOneByteHeader m4 extHeader 0 extId (bytes_of_string mid))%opt
        else Some message
    end.

End Tagger.

(** ** Messages and the message store *)

(** Modelled from the spec: a packet is "a byte buffer tagged with a kind,
    Data or Control (RTCP), and a best-effort priority marking (DSCP)"; the
    declaration of [Message] is in another header.  [track.cpp] only ever
    compares the kind with [Message::Control]. *)
Inductive MessageType : Type := Data | Control.

Definition MessageType_eqb (a b : MessageType) : bool :=
  match a, b with
  | Data, Data | Control, Control => true
  | _, _ => false
  end.

(** [struct Message : binary] with its [type] and [dscp] members. *)
Record Message : Type := mkMessage {
  data : binary;
  type : MessageType;
  dscp : Z
}.

(** [message_ptr] is a shared pointer: several holders alias one [Message].
    A non-null pointer is a location of the store; [optional] pointers and
    the null pointer are [option loc]. *)
Definition loc := nat.
Definition Heap := loc -> Message.

Definition heap_set (h : Heap) (p : loc) (m : Message) : Heap :=
  fun q => if Nat.eqb q p then m else h q.

(** [message_variant]: what [receive] and [peek] hand to the application. *)
Inductive message_variant : Type :=
| Binary (b : binary)
| Text (s : string).

(** Modelled from the spec: [to_variant] is defined outside [track.cpp].
    "A Control packet is copied (never moved) ...; a Data packet is moved":
    [to_variant(const Message &)] copies the bytes and leaves the message as
    it is, [to_variant(Message &&)] moves the bytes out, which leaves the
    moved-from buffer empty. *)
Definition to_variant_copy (m : Message) : message_variant := Binary (data m).

Definition to_variant_move (m : Message) : message_variant * Message :=
  (Binary (data m), mkMessage [] (type m) (dscp m)).

(** ** Media descriptions *)

Module Description.

Inductive Direction : Type := SendOnly | RecvOnly | SendRecv | Inactive.

Definition Direction_eqb (a b : Direction) : bool :=
  match a, b with
  | SendOnly, SendOnly | RecvOnly, RecvOnly
  | SendRecv, SendRecv | Inactive, Inactive => true
  | _, _ => false
  end.

(** An [extmap] entry: [{id, uri}]. *)
Record ExtMap : Type := mkExtMap { id : Z; uri : string }.

(** Modelled from the spec: [Description::Media] is declared outside
    [track.cpp].  "Media description: direction; media type; extension-id
    table mapping a well-known extension URI to a small integer id
    (1..14)".  The table is kept as the list of its entries. *)
Record Media : Type := mkMedia {
  mid : string;
  direction : Direction;
  type : string;
  extMaps : list ExtMap
}.

(** Modelled from the spec: "looked up by well-known URI". *)
Definition findExtId (d : Media) (u : string) : option Z :=
  option_map id (find (fun e => String.eqb (uri e) u) (extMaps d)).

Definition usedExtId (d : Media) (i : Z) : bool :=
  existsb (fun e => id e =? i) (extMaps d).

(** Search upwards from [candidate], at most [n] steps, for an id that is
    not in use. *)
Fixpoint firstUnused (used : Z -> bool) (candidate : Z) (n : nat) : Z :=
  match n with
  | O => candidate
  | S n' => if used candidate then firstUnused used (candidate + 1) n'
            else candidate
  end.

(** Modelled from the spec: "allocate the next unused extension id,
    1..14", "the lowest unused id in [1,14]".  The spec does not say what
    is returned when the fourteen ids are all in use; the search then
    leaves the range and ends on 15. *)
Definition nextExtId (d : Media) : Z := firstUnused (usedExtId d) 1 14.

(** Modelled from the spec: "add the mapping". *)
Definition addExtMap (d : Media) (e : ExtMap) : Media :=
  mkMedia (mid d) (direction d) (type d) (extMaps d ++ [e]).

(** How many entries of the table map the URI [u]. *)
Definition countUri (d : Media) (u : string) : nat :=
  List.length (filter (fun e => String.eqb (uri e) u) (extMaps d)).

End Description.

(** ** External collaborators *)

(** The peer connection is only asked for [config.mtu]. *)
Record PeerConnection : Type := mkPeerConnection {
  config_mtu : option Z
}.

(** What a transform chain leaves behind: the batch as the handler left it,
    the packets it passed to the [send] callback (in call order), the store
    and the handler afterwards. *)
Record ChainResult (H : Type) : Type := mkChainResult {
  chain_messages : list loc;
  chain_sent : list loc;
  chain_heap : Heap;
  chain_handler : H
}.
Arguments mkChainResult {H}.
Arguments chain_messages {H}.
Arguments chain_sent {H}.
Arguments chain_heap {H}.
Arguments chain_handler {H}.

(** The transform handler capability: [media], [incomingChain],
    [outgoingChain]. *)
Class MediaHandler (H : Type) : Type := {
  media : Description.Media -> H -> H;
  incomingChain : list loc -> Heap -> H -> ChainResult H;
  outgoingChain : list loc -> Heap -> H -> ChainResult H
}.

(** The transport capability: [sendMedia(packet) -> bool]. *)
Class DtlsSrtpTransport (T : Type) : Type := {
  sendMedia : Message -> T -> bool * T
}.

(** The receive queue, [Queue<message_ptr>], as [track.cpp] uses it.  The
    amount function given to the constructor reads the store through the
    pointer, so the operations that call it take it as an argument. *)
Module Queue.

Class Ops (Q : Type) : Type := {
  new : Z -> Q;
  full : Q -> bool;
  push : (loc -> Z) -> loc -> Q -> Q;
  pop : (loc -> Z) -> Q -> option loc * Q;
  peek : Q -> option loc;
  size : Q -> Z;
  amount : Q -> Z
}.

End Queue.

(** Modelled from the spec: the queue class is defined outside
    [track.cpp].  "Ordered sequence of pending inbound packets plus a running
    accumulated-size counter, a fixed capacity limit, and a size function
    mapping a packet to its accounted weight". *)
Module BoundedByteQueue.

Record t : Type := mk {
  mLimit : Z;
  mAmount : Z;
  mQueue : list loc
}.

Definition new (limit : Z) : t := mk limit 0 [].

(** "If accumulatedSize + weight(item) > capacity, reject without mutating
    the queue and return false; otherwise append and increase the
    accumulated size; returns true". *)
Definition push (weight : loc -> Z) (x : loc) (q : t) : bool * t :=
  if mLimit q <? mAmount q + weight x then (false, q)
  else (true, mk (mLimit q) (mAmount q + weight x) (mQueue q ++ [x])).

(** "True when the next push of a typical item would be rejected": no
    room is left, the accumulated size has reached the capacity. *)
Definition full (q : t) : bool := mLimit q <=? mAmount q.

(** "Removes and returns the front item, decreasing accumulated size;
    empty queue yields no value". *)
Definition pop (weight : loc -> Z) (q : t) : option loc * t :=
  match mQueue q with
  | [] => (None, q)
  | x :: rest => (Some x, mk (mLimit q) (mAmount q - weight x) rest)
  end.

(** "Returns a read-only view of the front item without removal". *)
Definition peek (q : t) : option loc := hd_error (mQueue q).

Definition size (q : t) : Z := Z.of_nat (List.length (mQueue q)).
Definition amount (q : t) : Z := mAmount q.

#[global] Instance ops : Queue.Ops t := {|
  Queue.new := new;
  Queue.full := full;
  Queue.push := fun weight x q => snd (push weight x q);
  Queue.pop := pop;
  Queue.peek := peek;
  Queue.size := size;
  Queue.amount := amount
|}.

End BoundedByteQueue.

(** ** Exceptions and events *)

Inductive exception : Type :=
| logic_error (what : string)
| runtime_error (what : string).

(** The error kinds of the spec, as the source raises them. *)
Definition ConfigurationMismatch : exception :=
  logic_error "Media description mid does not match track mid".
Definition TrackClosed : exception := runtime_error "Track is closed".
Definition MediaUnsupported : exception :=
  runtime_error "Track is disabled (not compiled with media support)".

Inductive result (A : Type) : Type :=
| Return (a : A)
| Throw (e : exception).
Arguments Return {A}.
Arguments Throw {A}.

(** Modelled from the spec: the [trigger...] members of the channel base
    class fire the "open", "closed" and "available" events; each call is
    recorded, in order. *)
Inductive Event : Type :=
| Open
| Closed
| Available (count : Z).

Definition Event_is_Closed (e : Event) : bool :=
  match e with Closed => true | _ => false end.

Definition sdesMidExtUri : string := "urn:ietf:params:rtp-hdrext:sdes:mid".

(** ** The track *)

Section TrackModel.

(** Handler, transport and queue implementations, and the state of the
    application that callbacks act on. *)
Context {Handler Transport RecvQueue App : Type}.
Context {handlerOps : MediaHandler Handler}
        {transportOps : DtlsSrtpTransport Transport}
        {queueOps : Queue.Ops RecvQueue}.

(** [IsRtcp] and [sizeof(RtpHeader)] of [rtp.hpp]; the constants
    [DEFAULT_MTU] and [RECV_QUEUE_LIMIT] of [internals.hpp]; the
    compile-time switch [RTC_ENABLE_MEDIA]; the value of a
    default-initialised [Description::Media] member. *)
Variable IsRtcp : binary -> bool.
Variable sizeof_RtpHeader : Z.
Variable DEFAULT_MTU : Z.
Variable RECV_QUEUE_LIMIT : Z.
Variable RTC_ENABLE_MEDIA : bool.
Variable defaultMedia : Description.Media.

Record Track : Type := mkTrack {
  mPeerConnection : option PeerConnection;  (* weak: [None] once expired *)
  mDtlsSrtpTransport : option Transport;           (* weak: [None] once expired *)
  mMediaHandler : option Handler;
  mMediaDescription : Description.Media;
  mSdesMidExtId : option Z;
  mIsClosed : bool;
  mRecvQueue : RecvQueue;
  messageCallback : option (message_variant -> App -> App)
}.

(** The track together with what its member functions reach besides it:
    the message store, the two file-level log counters, and the record of
    fired events. *)
Record World : Type := mkWorld {
  self : Track;
  heap : Heap;
  COUNTER_MEDIA_BAD_DIRECTION : Z;
  COUNTER_QUEUE_FULL : Z;
  events : list Event
}.

Definition with_self (t : Track) (w : World) : World :=
  mkWorld t (heap w) (COUNTER_MEDIA_BAD_DIRECTION w) (COUNTER_QUEUE_FULL w)
    (events w).
Definition with_heap (h : Heap) (w : World) : World :=
  mkWorld (self w) h (COUNTER_MEDIA_BAD_DIRECTION w) (COUNTER_QUEUE_FULL w)
    (events w).

Definition set_mDtlsSrtpTransport (x : option Transport) (t : Track) : Track :=
  mkTrack (mPeerConnection t) x (mMediaHandler t) (mMediaDescription t)
    (mSdesMidExtId t) (mIsClosed t) (mRecvQueue t) (messageCallback t).
Definition set_mMediaHandler (x : option Handler) (t : Track) : Track :=
  mkTrack (mPeerConnection t) (mDtlsSrtpTransport t) x (mMediaDescription t)
    (mSdesMidExtId t) (mIsClosed t) (mRecvQueue t) (messageCallback t).
Definition set_description (d : Description.Media) (i : option Z)
    (t : Track) : Track :=
  mkTrack (mPeerConnection t) (mDtlsSrtpTransport t) (mMediaHandler t) d
    i (mIsClosed t) (mRecvQueue t) (messageCallback t).
Definition set_mIsClosed (x : bool) (t : Track) : Track :=
  mkTrack (mPeerConnection t) (mDtlsSrtpTransport t) (mMediaHandler t)
    (mMediaDescription t) (mSdesMidExtId t) x (mRecvQueue t)
    (messageCallback t).
Definition set_mRecvQueue (x : RecvQueue) (t : Track) : Track :=
  mkTrack (mPeerConnection t) (mDtlsSrtpTransport t) (mMediaHandler t)
    (mMediaDescription t) (mSdesMidExtId t) (mIsClosed t) x
    (messageCallback t).
Definition set_messageCallback (x : option (message_variant -> App -> App))
    (t : Track) : Track :=
  mkTrack (mPeerConnection t) (mDtlsSrtpTransport t) (mMediaHandler t)
    (mMediaDescription t) (mSdesMidExtId t) (mIsClosed t) (mRecvQueue t) x.

(** *** State and exceptions

    A member function maps the world before the call to its outcome and
    the world after it; a thrown exception keeps the effects that came
    before the [throw]. *)
Definition M (A : Type) : Type := World -> result A * World.

Definition ret {A} (a : A) : M A := fun w => (Return a, w).
Definition throw {A} (e : exception) : M A := fun w => (Throw e, w).
Definition bind {A B} (c : M A) (k : A -> M B) : M B :=
  fun w => match c w with
           | (Return a, w1) => k a w1
           | (Throw e, w1) => (Throw e, w1)
           end.
Definition get : M World := fun w => (Return w, w).
Definition modify (f : World -> World) : M unit := fun w => (Return tt, f w).
Definition modify_self (f : Track -> Track) : M unit :=
  modify (fun w => with_self (f (self w)) w).

Notation "x <- c ;; k" := (bind c (fun x => k))
  (at level 61, c at next level, right associativity).
Notation "c ;; k" := (bind c (fun _ => k))
  (at level 61, right associativity).

(** *** Counters, events, callbacks *)

Definition COUNTER_MEDIA_BAD_DIRECTION_incr : M unit :=
  modify (fun w => mkWorld (self w) (heap w)
                     (COUNTER_MEDIA_BAD_DIRECTION w + 1)
                     (COUNTER_QUEUE_FULL w) (events w)).
Definition COUNTER_QUEUE_FULL_incr : M unit :=
  modify (fun w => mkWorld (self w) (heap w)
                     (COUNTER_MEDIA_BAD_DIRECTION w)
                     (COUNTER_QUEUE_FULL w + 1) (events w)).

Definition trigger (e : Event) : M unit :=
  modify (fun w => mkWorld (self w) (heap w)
                     (COUNTER_MEDIA_BAD_DIRECTION w)
                     (COUNTER_QUEUE_FULL w) (events w ++ [e])).
Definition triggerOpen : M unit := trigger Open.
Definition triggerClosed : M unit := trigger Closed.
Definition triggerAvailable (count : Z) : M unit := trigger (Available count).

(** Modelled from the spec: [resetCallbacks] of the channel base class
    "clears all registered callbacks". *)
Definition resetCallbacks : M unit := modify_self (set_messageCallback None).

(** *** Getters *)

Definition mid (w : World) : string :=
  Description.mid (mMediaDescription (self w)).
Definition direction (w : World) : Description.Direction :=
  Description.direction (mMediaDescription (self w)).
Definition description (w : World) : Description.Media :=
  mMediaDescription (self w).
Definition getMediaHandler (w : World) : option Handler := mMediaHandler (self w).
Definition isClosed (w : World) : bool := mIsClosed (self w).
Definition isOpen (w : World) : bool :=
  if RTC_ENABLE_MEDIA
  then negb (mIsClosed (self w))
       && match mDtlsSrtpTransport (self w) with Some _ => true | None => false end
  else false.

(** The amount function of the receive queue:
    [[](const message_ptr &m) { return m->size(); }]. *)
Definition amountFunction (w : World) (m : loc) : Z := size (data (heap w m)).

Definition availableAmount (w : World) : Z := Queue.amount (mRecvQueue (self w)).

(** *** [Track::setMediaHandler] *)
Definition setMediaHandler (handler : option Handler) : M unit :=
  modify_self (set_mMediaHandler handler) ;;
  match handler with
  | Some h =>
      w <- get ;;
      modify_self (set_mMediaHandler (Some (media (description w) h)))
  | None => ret tt
  end.

(** *** [Track::setDescription] *)
Definition setDescription (desc : Description.Media) : M unit :=
  w <- get ;;
  (* under the unique lock *)
  if negb (String.eqb (Description.mid desc)
             (Description.mid (mMediaDescription (self w))))
  then throw ConfigurationMismatch
  else
    (match Description.findExtId desc sdesMidExtUri with
     | Some i => modify_self (set_description desc (Some i))
     | None =>
         let i := Description.nextExtId desc in
         modify_self
           (set_description
              (Description.addExtMap desc (Description.mkExtMap i sdesMidExtUri))
              (Some i))
     end) ;;
    (* lock released *)
    w1 <- get ;;
    match getMediaHandler w1 with
    | Some h => modify_self (set_mMediaHandler (Some (media (description w1) h)))
    | None => ret tt
    end.

(** *** [Track::Track] *)
Definition initialTrack (pc : option PeerConnection) : Track :=
  mkTrack pc None None defaultMedia None false (Queue.new RECV_QUEUE_LIMIT) None.

(** The callback [[](message_variant) {}]. *)
Definition discardMessage : message_variant -> App -> App := fun _ app => app.

Definition Track_ctor (pc : option PeerConnection) (desc : Description.Media)
    : M unit :=
  modify (with_self (initialTrack pc)) ;;
  setDescription desc ;;
  w <- get ;;
  if Description.Direction_eqb (direction w) Description.SendOnly
  then modify_self (set_messageCallback (Some discardMessage))
  else ret tt.

(** *** [Track::close] *)
Definition close : M unit :=
  w <- get ;;
  (* mIsClosed.exchange(true) *)
  modify_self (set_mIsClosed true) ;;
  (if negb (mIsClosed (self w)) then triggerClosed else ret tt) ;;
  setMediaHandler None ;;
  resetCallbacks.

(** *** [Track::open] *)
Definition open (transport : option Transport) : M unit :=
  modify_self (set_mDtlsSrtpTransport transport) ;;
  w <- get ;;
  if negb (mIsClosed (self w)) then triggerOpen else ret tt.

(** *** [Track::maxMessageSize] *)
Definition maxMessageSize (w : World) : Z :=
  let mtu : option Z :=
    match mPeerConnection (self w) with
    | Some pc => config_mtu pc
    | None => None
    end in
  size_t_sub
    (size_t_sub
       (size_t_sub (match mtu with Some v => v | None => DEFAULT_MTU end) 12)
       8)
    40. (* SRTP/UDP/IPv6 *)

(** *** [Track::receive] and [Track::peek] *)
Definition receive : M (option message_variant) :=
  w <- get ;;
  let '(next, q) := Queue.pop (amountFunction w) (mRecvQueue (self w)) in
  modify_self (set_mRecvQueue q) ;;
  match next with
  | Some message =>
      if MessageType_eqb (type (heap w message)) Control
      then ret (Some (to_variant_copy (heap w message)))
      else
        let '(v, moved_from) := to_variant_move (heap w message) in
        modify (with_heap (heap_set (heap w) message moved_from)) ;;
        ret (Some v)
  | None => ret None
  end.

Definition peek : M (option message_variant) :=
  w <- get ;;
  match Queue.peek (mRecvQueue (self w)) with
  | Some message =>
      if MessageType_eqb (type (heap w message)) Control
      then ret (Some (to_variant_copy (heap w message)))
      else
        let '(v, moved_from) := to_variant_move (heap w message) in
        modify (with_heap (heap_set (heap w) message moved_from)) ;;
        ret (Some v)
  | None => ret None
  end.

(** *** [Track::transportSend] *)
Definition transportSend (message : loc) : M bool :=
  if RTC_ENABLE_MEDIA then
    w <- get ;;
    match mDtlsSrtpTransport (self w) with
    | None => throw TrackClosed
    | Some transport =>
        let m := heap w message in
        let marked :=
          mkMessage (data m) (type m)
            (if String.eqb (Description.type (mMediaDescription (self w))) "audio"
             then 46    (* EF: Expedited Forwarding *)
             else 36)   (* AF42 *) in
        modify (with_heap (heap_set (heap w) message marked)) ;;
        let '(sent, transport') := sendMedia marked transport in
        modify_self (set_mDtlsSrtpTransport (Some transport')) ;;
        ret sent
    end
  else throw MediaUnsupported.

(** The packets a chain handed to its [send] callback,
    [[this](message_ptr m) { transportSend(m); }], in call order. *)
Fixpoint sendNow (messages : list loc) : M unit :=
  match messages with
  | [] => ret tt
  | m :: rest => transportSend m ;; sendNow rest
  end.

Definition installChainResult (c : ChainResult Handler) : M unit :=
  modify (with_heap (chain_heap c)) ;;
  modify_self (set_mMediaHandler (Some (chain_handler c))).

(** *** [Track::incoming] *)

(** Lines 156-158: the one-element batch goes through the inbound chain of
    the attached handler, if any. *)
Definition incomingBatch (message : loc) : M (list loc) :=
  w <- get ;;
  match getMediaHandler w with
  | Some handler =>
      let c := incomingChain [message] (heap w) handler in
      installChainResult c ;;
      sendNow (chain_sent c) ;;
      ret (chain_messages c)
  | None => ret [message]
  end.

(** Lines 160-169: the admission loop. *)
Fixpoint admitBatch (messages : list loc) : M unit :=
  match messages with
  | [] => ret tt
  | m :: rest =>
      w <- get ;;
      (* Tail drop if queue is full *)
      if Queue.full (mRecvQueue (self w))
      then COUNTER_QUEUE_FULL_incr (* return *)
      else
        modify_self (set_mRecvQueue
                       (Queue.push (amountFunction w) m (mRecvQueue (self w)))) ;;
        w1 <- get ;;
        triggerAvailable (Queue.size (mRecvQueue (self w1))) ;;
        admitBatch rest
  end.

Definition forbidsReceiving (dir : Description.Direction) : bool :=
  Description.Direction_eqb dir Description.SendOnly
  || Description.Direction_eqb dir Description.Inactive.

Definition forbidsSending (dir : Description.Direction) : bool :=
  Description.Direction_eqb dir Description.RecvOnly
  || Description.Direction_eqb dir Description.Inactive.

Definition incoming (message : option loc) : M unit :=
  match message with
  | None => ret tt
  | Some p =>
      w <- get ;;
      let dir := direction w in
      if forbidsReceiving dir
         && negb (MessageType_eqb (type (heap w p)) Control)
      then COUNTER_MEDIA_BAD_DIRECTION_incr (* return *)
      else
        messages <- incomingBatch p ;;
        admitBatch messages
  end.

(** *** [Track::outgoing] *)

(** [for (auto &m : messages) ret = transportSend(std::move(m));] *)
Fixpoint sendEach (messages : list loc) (r : bool) : M bool :=
  match messages with
  | [] => ret r
  | m :: rest => r' <- transportSend m ;; sendEach rest r'
  end.

Definition set_type (ty : MessageType) (m : Message) : Message :=
  mkMessage (data m) ty (dscp m).

(** Lines 178-180: without a handler, a packet that is structurally RTCP
    is marked as Control. *)
Definition reclassifyRtcp (handler : option Handler) (message : loc)
    : M unit :=
  w <- get ;;
  (* If there is no handler, the track expects RTP or RTCP packets *)
  if match handler with None => true | Some _ => false end
     && IsRtcp (data (heap w message))
  then modify (with_heap (heap_set (heap w) message
                            (set_type Control (heap w message))))
  else ret tt.

(** Lines 189-200: through the outbound chain of the handler, if any, to
    the transport. *)
Definition sendThrough (handler : option Handler) (message : loc)
    : M bool :=
  match handler with
  | Some h =>
      w <- get ;;
      let c := outgoingChain [message] (heap w) h in
      installChainResult c ;;
      sendNow (chain_sent c) ;;
      sendEach (chain_messages c) false
  | None => transportSend message
  end.

Definition outgoing (message : loc) : M bool :=
  w <- get ;;
  if mIsClosed (self w) then throw TrackClosed
  else
    let handler := getMediaHandler w in
    reclassifyRtcp handler message ;;
    w1 <- get ;;
    let dir := direction w1 in
    if forbidsSending dir
       && negb (MessageType_eqb (type (heap w1 message)) Control)
    then COUNTER_MEDIA_BAD_DIRECTION_incr ;; ret false
    else sendThrough handler message.

(** *** [Track::tagWithMid]

    [None]: the call accesses memory outside the packet buffer. *)
Definition tagWithMid (message : loc) (w : World) : option World :=
  option_map
    (fun bytes =>
       with_heap (heap_set (heap w) message
                    (mkMessage bytes (type (heap w message))
                       (dscp (heap w message)))) w)
    (tagWithMid_bytes IsRtcp sizeof_RtpHeader (mSdesMidExtId (self w))
       (mid w) (data (heap w message))).

End TrackModel.

(** ** API calls as data *)

(** The member functions an application or the transport can call on a
    track, for statements about sequences of calls. *)
Section Calls.

Context {Handler Transport RecvQueue App : Type}.
Context {handlerOps : MediaHandler Handler}
        {transportOps : DtlsSrtpTransport Transport}
        {queueOps : Queue.Ops RecvQueue}.
Variable IsRtcp : binary -> bool.
Variable RTC_ENABLE_MEDIA : bool.

Inductive Call : Type :=
| CallSetDescription (desc : Description.Media)
| CallSetMediaHandler (handler : option Handler)
| CallOpen (transport : option Transport)
| CallClose
| CallIncoming (message : option loc)
| CallOutgoing (message : loc)
| CallReceive
| CallPeek.

Definition step (c : Call) (w : @World Handler Transport RecvQueue App)
    : World :=
  match c with
  | CallSetDescription desc => snd (setDescription desc w)
  | CallSetMediaHandler handler => snd (setMediaHandler handler w)
  | CallOpen transport => snd (open transport w)
  | CallClose => snd (close w)
  | CallIncoming message => snd (incoming RTC_ENABLE_MEDIA message w)
  | CallOutgoing message => snd (outgoing IsRtcp RTC_ENABLE_MEDIA message w)
  | CallReceive => snd (receive w)
  | CallPeek => snd (peek w)
  end.

Definition run (cs : list Call) (w : World) : World :=
  fold_left (fun w c => step c w) cs w.

Definition closedEvents (w : @World Handler Transport RecvQueue App) : nat :=
  List.length (filter Event_is_Closed (events w)).

End Calls.

(** ** Concrete collaborators for closed examples *)

Module Scenario.

(** A handler whose chains append the packets it holds to the batch and
    send nothing on the side. *)
Record Fanout : Type := mkFanout { extra : list loc }.

#[global] Instance Fanout_handler : MediaHandler Fanout := {|
  media := fun _ h => h;
  incomingChain := fun ms hp h => mkChainResult (ms ++ extra h) [] hp h;
  outgoingChain := fun ms hp h => mkChainResult (ms ++ extra h) [] hp h
|}.

(** A transport that accepts every packet and keeps what it was given. *)
Definition Wire : Type := list Message.

#[global] Instance Wire_transport : DtlsSrtpTransport Wire := {|
  sendMedia := fun m t => (true, t ++ [m])
|}.

(** A 12-byte RTP packet: version 2, no padding, no extension, no CSRC,
    payload type 96, sequence number 1, timestamp 1, SSRC 1. *)
Definition plainRtp : binary := [128; 96; 0; 1; 0; 0; 0; 1; 0; 0; 0; 1].

(** The same header with the extension flag set, followed by a [0xBEDE]
    block of one word holding the element (id 2, value "ab"). *)
Definition taggedRtp : binary :=
  [144; 96; 0; 1; 0; 0; 0; 1; 0; 0; 0; 1;
   190; 222; 0; 1;  33; 97; 98; 0].

(** The same with a two-byte-header profile ([0x1000]) instead. *)
Definition foreignRtp : binary :=
  [144; 96; 0; 1; 0; 0; 0; 1; 0; 0; 0; 1;
   16; 0; 0; 1;  2; 2; 97; 98].

(** The same three packets with a payload that takes them to 76 bytes and
    more. *)
Definition payload : binary := repeat 7 64.
Definition plainMedia : binary := plainRtp ++ payload.
Definition taggedMedia : binary := taggedRtp ++ payload.

(** An RTCP receiver report (packet type 201) with no report block. *)
Definition rtcpRR : binary := [128; 201; 0; 1; 0; 0; 0; 1].

Definition audio (m : string) (dir : Description.Direction)
    : Description.Media :=
  Description.mkMedia m dir "audio" [].

(** A store holding [b] as a Data packet at every location. *)
Definition heapOf (b : binary) : Heap := fun _ => mkMessage b Data 0.

(** Data packets of three bytes at locations 0, 1, 2, ... *)
Definition threeByteHeap : Heap :=
  fun p => mkMessage [Z.of_nat p; 2; 3] Data 0.

Definition World0 (Handler : Type) : Type :=
  @World Handler Wire BoundedByteQueue.t unit.

(** A track as constructed by [Track_ctor] on an empty default
    description, with the given direction and queue limit. *)
Definition world (Handler : Type) (hp : Heap) (limit : Z)
    (handler : option Handler) (dir : Description.Direction)
    : World0 Handler :=
  mkWorld
    (mkTrack None None handler
       (Description.mkMedia "0" dir "audio" [Description.mkExtMap 1 sdesMidExtUri])
       (Some 1) false (BoundedByteQueue.new limit) None)
    hp 0 0 [].

(** A transport that refuses packets without bytes and accepts, and keeps,
    the others. *)
Record Picky : Type := mkPicky { accepted : list Message }.

#[global] Instance Picky_transport : DtlsSrtpTransport Picky := {|
  sendMedia := fun m t =>
    if size (data m) =? 0 then (false, t)
    else (true, mkPicky (accepted t ++ [m]))
|}.

End Scenario.

(** ** Vocabulary of the statements *)

(** Header sizes behind the constants of [maxMessageSize]. *)
Definition RTP_FIXED_HEADER_SIZE : Z := 12.
Definition UDP_HEADER_SIZE : Z := 8.
Definition IPV4_HEADER_SIZE : Z := 20.
Definition IPV6_HEADER_SIZE : Z := 40.
Definition fixedOverhead : Z :=
  RTP_FIXED_HEADER_SIZE + UDP_HEADER_SIZE + Z.max IPV4_HEADER_SIZE IPV6_HEADER_SIZE.

(** The packet carries an extension block whose profile id is not
    [0xBEDE]. *)
Definition hasForeignExtension (packet : binary) : Prop :=
  exists ext pid,
    Rtp.extension packet = Some true
    /\ Rtp.getExtensionHeader packet = Some ext
    /\ Rtp.profileSpecificId packet ext = Some pid
    /\ pid <> 0xbede.

(** [k] is the lowest id of 1..14 that the description does not use. *)
Definition lowestUnusedExtId (d : Description.Media) (k : Z) : Prop :=
  1 <= k <= 14
  /\ Description.usedExtId d k = false
  /\ forall j, 1 <= j < k -> Description.usedExtId d j = true.

Section Vocabulary.

Context {Handler Transport RecvQueue App : Type}.
Context {queueOps : Queue.Ops RecvQueue}.

Let World : Type := @World Handler Transport RecvQueue App.

(** Same track, counters and events, and the same message behind every
    pointer. *)
Definition sameWorld (w w' : World) : Prop :=
  self w' = self w
  /\ (forall q, heap w' q = heap w q)
  /\ COUNTER_MEDIA_BAD_DIRECTION w' = COUNTER_MEDIA_BAD_DIRECTION w
  /\ COUNTER_QUEUE_FULL w' = COUNTER_QUEUE_FULL w
  /\ events w' = events w.

(** The world after a drop by the direction gate: one more on the
    bad-direction counter, nothing else touched. *)
Definition droppedBadDirection (w : World) : World :=
  mkWorld (self w) (heap w) (COUNTER_MEDIA_BAD_DIRECTION w + 1)
    (COUNTER_QUEUE_FULL w) (events w).

(** The kind [outgoing] sees at its direction gate: a packet that is
    structurally RTCP counts as Control when no handler is attached. *)
Definition outgoingKind (IsRtcp : binary -> bool) (w : World) (message : loc)
    : MessageType :=
  if match mMediaHandler (self w) with None => true | Some _ => false end
     && IsRtcp (data (heap w message))
  then Control
  else type (heap w message).

(** The queue after pushing [ms] in order; the weight of a packet is its
    byte length in the store [hp]. *)
Definition pushAll (hp : Heap) (ms : list loc) (q : RecvQueue) : RecvQueue :=
  fold_left (fun q m => Queue.push (fun p => size (data (hp p))) m q) ms q.

(** The "available" events of admitting [ms] one by one, each with the
    item count right after its push. *)
Fixpoint availableEvents (hp : Heap) (ms : list loc) (q : RecvQueue)
    : list Event :=
  match ms with
  | [] => []
  | m :: rest =>
      let q1 := Queue.push (fun p => size (data (hp p))) m q in
      Available (Queue.size q1) :: availableEvents hp rest q1
  end.

(** [admitted] is the part of the batch [ms] that reaches the queue of
    [w], and [w'] the outcome: the queue was not full before any admitted
    packet; each admitted packet was pushed and fired "available" with
    the new count; if packets remain, the queue was full at the first of
    them, the full-queue counter went up by one, and none of them was
    pushed; nothing else changed. *)
Definition admission (w : World) (ms admitted : list loc) (w' : World)
    : Prop :=
  let q := mRecvQueue (self w) in
  (exists abandoned, ms = admitted ++ abandoned
     /\ (abandoned = [] -> COUNTER_QUEUE_FULL w' = COUNTER_QUEUE_FULL w)
     /\ (abandoned <> [] ->
         Queue.full (pushAll (heap w) admitted q) = true
         /\ COUNTER_QUEUE_FULL w' = COUNTER_QUEUE_FULL w + 1))
  /\ (forall k, (k < List.length admitted)%nat ->
        Queue.full (pushAll (heap w) (firstn k admitted) q) = false)
  /\ self w' = set_mRecvQueue (pushAll (heap w) admitted q) (self w)
  /\ events w' = events w ++ availableEvents (heap w) admitted q
  /\ heap w' = heap w
  /\ COUNTER_MEDIA_BAD_DIRECTION w' = COUNTER_MEDIA_BAD_DIRECTION w.

(** The mtu of the configuration, when the peer connection is still
    there and its configuration sets one. *)
Definition configuredMtu (w : World) : option Z :=
  match mPeerConnection (self w) with
  | Some pc => config_mtu pc
  | None => None
  end.

(** What sending and transform chains leave alone: counters, events, the
    closed flag, the callbacks, the queue and the negotiated state.  (The
    store, the handler and the transport may change.) *)
Definition sendFrame (w w' : World) : Prop :=
  COUNTER_MEDIA_BAD_DIRECTION w' = COUNTER_MEDIA_BAD_DIRECTION w
  /\ COUNTER_QUEUE_FULL w' = COUNTER_QUEUE_FULL w
  /\ events w' = events w
  /\ mIsClosed (self w') = mIsClosed (self w)
  /\ messageCallback (self w') = messageCallback (self w)
  /\ mRecvQueue (self w') = mRecvQueue (self w)
  /\ mMediaDescription (self w') = mMediaDescription (self w)
  /\ mSdesMidExtId (self w') = mSdesMidExtId (self w).

(** The closed flag and the record of "closed" events agree: the event
    has fired once if the track is closed, and not at all otherwise. *)
Definition closedOnce (w : World) : Prop :=
  closedEvents w = if mIsClosed (self w) then 1%nat else 0%nat.

(** The closed flag and the number of "closed" events are the same in
    both worlds. *)
Definition sameClosed (w w' : World) : Prop :=
  mIsClosed (self w') = mIsClosed (self w)
  /\ closedEvents w' = closedEvents w.

(** The direction gate dropped the packet: the call returns at once, with
    one more on the bad-direction counter and nothing else touched. *)
Definition incomingDrops {handlerOps : MediaHandler Handler}
    {transportOps : DtlsSrtpTransport Transport}
    (RTC_ENABLE_MEDIA : bool) (w : World) (message : loc) : Prop :=
  incoming RTC_ENABLE_MEDIA (Some message) w
  = (Return tt, droppedBadDirection w).

Definition outgoingDrops {handlerOps : MediaHandler Handler}
    {transportOps : DtlsSrtpTransport Transport}
    (IsRtcp : binary -> bool) (RTC_ENABLE_MEDIA : bool) (w : World)
    (message : loc) : Prop :=
  outgoing IsRtcp RTC_ENABLE_MEDIA message w
  = (Return false, droppedBadDirection w).

(** The message that [transportSend] hands to the transport for the packet
    behind [message]: its bytes, the kind it has at the gate of [outgoing],
    and the DSCP value of the media type. *)
Definition markedForSend (IsRtcp : binary -> bool) (w : World) (message : loc)
    : Message :=
  mkMessage (data (heap w message)) (outgoingKind IsRtcp w message)
    (if String.eqb (Description.type (mMediaDescription (self w))) "audio"
     then 46 else 36).

(** What [outgoing] leaves alone whatever its outcome: events, the receive
    queue, the closed flag, the callbacks, the negotiated state and the
    full-queue counter. *)
Definition receiveSideKept (w w' : World) : Prop :=
  events w' = events w
  /\ mRecvQueue (self w') = mRecvQueue (self w)
  /\ mIsClosed (self w') = mIsClosed (self w)
  /\ messageCallback (self w') = messageCallback (self w)
  /\ mMediaDescription (self w') = mMediaDescription (self w)
  /\ mSdesMidExtId (self w') = mSdesMidExtId (self w)
  /\ COUNTER_QUEUE_FULL w' = COUNTER_QUEUE_FULL w.

End Vocabulary.

(** * Theorems *)

(** ** The extension tagger *)

Lemma read8_past_end (b : binary) (off : Z) :
  size b <= off -> Buf.read8 b off = None.
Proof.
  intros Hle. unfold Buf.read8, size in *.
  destruct (off <? 0) eqn:E; [reflexivity|].
  apply nth_error_None. lia.
Qed.



Lemma getSize_at_least_fixed_header (b : binary) (pos : Z) :
  Rtp.getSize b = Some pos -> Rtp.offsetof_csrc <= pos.
Proof.
  unfold Rtp.getSize, Rtp.csrcCount.
  destruct (Buf.read8 b 0) as [first|]; [|discriminate].
  unfold option_map. intros Heq.
  assert (Hpos : pos = Rtp.offsetof_csrc + Rtp.sizeof_SSRC * Z.land first 15)
    by congruence.
  assert (0 <= Z.land first 15) by (apply Z.land_nonneg; lia).
  rewrite Hpos. change Rtp.sizeof_SSRC with 4. lia.
Qed.

Lemma insert_past_end (b : binary) (pos count v : Z) :
  size b < pos -> Buf.insert b pos count v = None.
Proof.
  intros Hlt. unfold Buf.insert.
  destruct (pos <=? size b) eqn:E; [apply Z.leb_le in E; lia|].
  now rewrite andb_false_r.
Qed.

Section TaggerFacts.

Variable IsRtcp : binary -> bool.
Variable sizeof_RtpHeader : Z.

(** A packet of at least [sizeof(RtpHeader)] bytes is returned as it
    came. *)
Lemma tagWithMid_bytes_full_header (extId : option Z) (mid : string)
    (message : binary) :
  sizeof_RtpHeader <= size message ->
  tagWithMid_bytes IsRtcp sizeof_RtpHeader extId mid message = Some message.
Proof.
  intros Hsz. unfold tagWithMid_bytes.
  destruct (IsRtcp message); [reflexivity|].
  destruct extId; [|reflexivity].
  destruct (size message <? sizeof_RtpHeader) eqn:E; [|reflexivity].
  apply Z.ltb_lt in E. lia.
Qed.

(** When [sizeof(RtpHeader)] is the size of the fixed header, the packet
    is returned as it came whenever the call is defined: no packet is ever
    tagged. *)
Lemma tagWithMid_bytes_never_tags (extId : option Z) (mid : string)
    (message tagged : binary) :
  sizeof_RtpHeader <= Rtp.offsetof_csrc ->
  tagWithMid_bytes IsRtcp sizeof_RtpHeader extId mid message = Some tagged ->
  tagged = message.
Proof.
  intros Hsize. unfold tagWithMid_bytes.
  destruct (IsRtcp message); [congruence|].
  destruct extId as [i|]; [|congruence].
  destruct (size message <? sizeof_RtpHeader) eqn:E; [|congruence].
  apply Z.ltb_lt in E.
  destruct (Rtp.extension message) as [[|]|] eqn:Ex; cbn; [| |discriminate].
  - unfold Rtp.getExtensionHeader.
    destruct (Rtp.getSize message) as [pos|] eqn:Eg; cbn; [|discriminate].
    apply getSize_at_least_fixed_header in Eg.
    unfold Rtp.profileSpecificId, Buf.read16.
    rewrite (read8_past_end message pos) by lia. discriminate.
  - destruct (Rtp.getSize message) as [pos|] eqn:Eg; cbn; [|discriminate].
    apply getSize_at_least_fixed_header in Eg.
    rewrite insert_past_end by lia. discriminate.
Qed.

Lemma tagWithMid_bytes_foreign (extId : option Z) (mid : string)
    (message : binary) :
  hasForeignExtension message ->
  tagWithMid_bytes IsRtcp sizeof_RtpHeader extId mid message = Some message.
Proof.
  intros (ext & pid & Hx & Hext & Hpid & Hne). unfold tagWithMid_bytes.
  destruct (IsRtcp message); [reflexivity|].
  destruct extId; [|reflexivity].
  destruct (size message <? sizeof_RtpHeader); [|reflexivity].
  rewrite Hx. cbn. rewrite Hext. cbn. rewrite Hpid. cbn.
  apply Z.eqb_neq in Hne. now rewrite Hne.
Qed.

End TaggerFacts.

Lemma heap_set_same (hp : Heap) (p q : loc) :
  heap_set hp p (mkMessage (data (hp p)) (type (hp p)) (dscp (hp p))) q = hp q.
Proof.
  unfold heap_set. destruct (Nat.eqb q p) eqn:E; [|reflexivity].
  apply Nat.eqb_eq in E. subst q. now destruct (hp p).
Qed.

Lemma tagWithMid_of_unchanged_bytes {Handler Transport RecvQueue App : Type}
    (IsRtcp : binary -> bool) (sizeof_RtpHeader : Z)
    (w : @World Handler Transport RecvQueue App) (message : loc) :
  tagWithMid_bytes IsRtcp sizeof_RtpHeader (mSdesMidExtId (self w)) (mid w)
    (data (heap w message)) = Some (data (heap w message)) ->
  exists w', tagWithMid IsRtcp sizeof_RtpHeader message w = Some w'
             /\ sameWorld w w'.
Proof.
  intros Hb. unfold tagWithMid. rewrite Hb. cbn [option_map].
  eexists. split; [reflexivity|].
  unfold sameWorld, with_heap; cbn.
  repeat split; try reflexivity.
  intros q. apply heap_set_same.
Qed.

(** C9. [tagWithMid] leaves the packet byte for byte as it was, and the rest
    of the world with it, when the packet is structurally RTCP, when the
    track has no mid extension id, or when the packet carries an extension
    block whose profile id is not [0xBEDE]. *)
Theorem tagWithMid_leaves_packet_unchanged
    {Handler Transport RecvQueue App : Type} (IsRtcp : binary -> bool)
    (sizeof_RtpHeader : Z)
    (w : @World Handler Transport RecvQueue App) (message : loc) :
  IsRtcp (data (heap w message)) = true
  \/ mSdesMidExtId (self w) = None
  \/ hasForeignExtension (data (heap w message)) ->
  tagWithMid_bytes IsRtcp sizeof_RtpHeader (mSdesMidExtId (self w)) (mid w)
    (data (heap w message)) = Some (data (heap w message))
  /\ exists w', tagWithMid IsRtcp sizeof_RtpHeader message w = Some w'
                /\ sameWorld w w'.
Proof.
  intros Hcase.
  assert (Hb : tagWithMid_bytes IsRtcp sizeof_RtpHeader
                 (mSdesMidExtId (self w)) (mid w)
                 (data (heap w message)) = Some (data (heap w message))).
  { destruct Hcase as [Hrtcp | [Hnone | Hforeign]].
    - unfold tagWithMid_bytes. now rewrite Hrtcp.
    - unfold tagWithMid_bytes. rewrite Hnone.
      now destruct (IsRtcp (data (heap w message))).
    - now apply tagWithMid_bytes_foreign. }
  split; [exact Hb | now apply tagWithMid_of_unchanged_bytes].
Qed.

Lemma foreignRtp_hasForeignExtension : hasForeignExtension Scenario.foreignRtp.
Proof.
  exists 12, 4096. repeat split; try reflexivity. discriminate.
Defined.

Lemma tagWithMid_leaves_packet_unchanged_witness :
  let IsRtcp := Rtp.IsRtcp_by_payload_type in
  let foreign := Scenario.world Scenario.Fanout
                   (Scenario.heapOf Scenario.foreignRtp) 1024 None
                   Description.SendRecv in
  let control := Scenario.world Scenario.Fanout
                   (fun _ => mkMessage Scenario.rtcpRR Control 0) 1024 None
                   Description.SendRecv in
  (exists w', tagWithMid IsRtcp 76 0%nat foreign = Some w'
              /\ sameWorld foreign w')
  /\ (exists w', tagWithMid IsRtcp Rtp.sizeof_RtpHeader 0%nat control = Some w'
                 /\ sameWorld control w').
Proof.
  intros IsRtcp foreign control. split.
  - apply (tagWithMid_leaves_packet_unchanged IsRtcp 76 foreign 0%nat).
    right. right. exact foreignRtp_hasForeignExtension.
  - apply (tagWithMid_leaves_packet_unchanged IsRtcp Rtp.sizeof_RtpHeader
             control 0%nat).
    left. reflexivity.
Defined.

(** C1 (the source does not do this).  A well-formed Data packet of 76
    bytes without extension block, on a track with mid ["0"] and mid
    extension id 1, comes back from [tagWithMid] as it went in: the
    extension flag is still clear and there is no extension block to parse.
    A packet that already carries a [0xBEDE] block with one element comes
    back with that one element only.  This is so with [sizeof(RtpHeader)]
    at 12, and at any other value up to the size of the packet. *)
Theorem tagWithMid_tags_no_wellformed_packet :
  let IsRtcp := Rtp.IsRtcp_by_payload_type in
  let track := fun packet =>
    Scenario.world Scenario.Fanout (Scenario.heapOf packet) 1024 None
      Description.SendRecv in
  (IsRtcp Scenario.plainMedia = false
   /\ Rtp.extension Scenario.plainMedia = Some false
   /\ mSdesMidExtId (self (track Scenario.plainMedia)) = Some 1
   /\ mid (track Scenario.plainMedia) = "0"%string
   /\ forall sizeof_RtpHeader, sizeof_RtpHeader <= 76 ->
      exists w',
        tagWithMid IsRtcp sizeof_RtpHeader 0%nat (track Scenario.plainMedia)
        = Some w'
        /\ data (heap w' 0%nat) = Scenario.plainMedia
        /\ Rtp.extension (data (heap w' 0%nat)) = Some false
        /\ Rtp.parseExtension (data (heap w' 0%nat)) = None)
  /\ (IsRtcp Scenario.taggedMedia = false
      /\ Rtp.parseExtension Scenario.taggedMedia
         = Some (0xbede, [(2, bytes_of_string "ab")])
      /\ forall sizeof_RtpHeader, sizeof_RtpHeader <= 84 ->
         exists w',
           tagWithMid IsRtcp sizeof_RtpHeader 0%nat (track Scenario.taggedMedia)
           = Some w'
           /\ data (heap w' 0%nat) = Scenario.taggedMedia
           /\ Rtp.parseExtension (data (heap w' 0%nat))
              = Some (0xbede, [(2, bytes_of_string "ab")])).
Proof.
  cbv zeta. split.
  - repeat split; try reflexivity.
    intros S HS. unfold tagWithMid.
    rewrite tagWithMid_bytes_full_header by exact HS.
    eexists. split; [reflexivity|]. repeat split; reflexivity.
  - repeat split; try reflexivity.
    intros S HS. unfold tagWithMid.
    rewrite tagWithMid_bytes_full_header by exact HS.
    eexists. split; [reflexivity|]. repeat split; reflexivity.
Qed.

(** ** [maxMessageSize] *)

Lemma size_t_sub_sub (a b c : Z) :
  size_t_sub (size_t_sub a b) c = size_t_sub a (b + c).
Proof.
  unfold size_t_sub, size_t_wrap.
  rewrite Zminus_mod_idemp_l. f_equal. lia.
Qed.

Lemma size_t_sub_exact (a b : Z) :
  0 <= b -> b <= a < SIZE_MAX1 -> size_t_sub a b = a - b.
Proof.
  intros Hb Hr. unfold size_t_sub, size_t_wrap.
  assert (E : SIZE_MAX1 = 18446744073709551616) by reflexivity.
  apply Z.mod_small. rewrite E in *. lia.
Qed.

(** C8. [maxMessageSize()] is the configured mtu less the fixed overhead
    when the configuration supplies an mtu, and the default mtu less the
    fixed overhead otherwise, in [size_t] arithmetic; the fixed overhead is
    the RTP fixed header (12) plus the UDP header (8) plus the larger of the
    two network headers, IPv6 (40).  With an mtu of at least the overhead
    the difference is the plain one. *)
Theorem maxMessageSize_is_mtu_less_overhead
    {Handler Transport RecvQueue App : Type} (DEFAULT_MTU : Z)
    (w : @World Handler Transport RecvQueue App) :
  fixedOverhead = RTP_FIXED_HEADER_SIZE + UDP_HEADER_SIZE + IPV6_HEADER_SIZE
  /\ (forall mtu, configuredMtu w = Some mtu ->
        maxMessageSize DEFAULT_MTU w = size_t_sub mtu fixedOverhead
        /\ (fixedOverhead <= mtu < SIZE_MAX1 ->
            maxMessageSize DEFAULT_MTU w = mtu - fixedOverhead))
  /\ (configuredMtu w = None ->
        maxMessageSize DEFAULT_MTU w = size_t_sub DEFAULT_MTU fixedOverhead
        /\ (fixedOverhead <= DEFAULT_MTU < SIZE_MAX1 ->
            maxMessageSize DEFAULT_MTU w = DEFAULT_MTU - fixedOverhead)).
Proof.
  split; [reflexivity|].
  assert (Hgen : forall v,
             match configuredMtu w with Some m => m | None => DEFAULT_MTU end = v ->
             maxMessageSize DEFAULT_MTU w = size_t_sub v fixedOverhead).
  { intros v <-. unfold maxMessageSize, configuredMtu.
    rewrite !size_t_sub_sub. reflexivity. }
  split.
  - intros mtu Hc.
    assert (Hm : maxMessageSize DEFAULT_MTU w = size_t_sub mtu fixedOverhead)
      by (apply Hgen; now rewrite Hc).
    split; [exact Hm|]. intros Hr. rewrite Hm. now apply size_t_sub_exact.
  - intros Hc.
    assert (Hm : maxMessageSize DEFAULT_MTU w
                 = size_t_sub DEFAULT_MTU fixedOverhead)
      by (apply Hgen; now rewrite Hc).
    split; [exact Hm|]. intros Hr. rewrite Hm. now apply size_t_sub_exact.
Qed.

Lemma maxMessageSize_is_mtu_less_overhead_witness :
  let configured :=
    mkWorld
      (mkTrack (Some (mkPeerConnection (Some 1500))) None None
         (Scenario.audio "0" Description.SendRecv) None false
         (BoundedByteQueue.new 1024) None)
      (Scenario.heapOf []) 0 0 [] : Scenario.World0 Scenario.Fanout in
  let unconfigured :=
    Scenario.world Scenario.Fanout (Scenario.heapOf []) 1024 None
      Description.SendRecv in
  maxMessageSize 1280 configured = 1440
  /\ maxMessageSize 1280 unconfigured = 1220.
Proof.
  intros configured unconfigured. split.
  - destruct (maxMessageSize_is_mtu_less_overhead 1280 configured)
      as (_ & Hcfg & _).
    destruct (Hcfg 1500 eq_refl) as [_ Hplain]. apply Hplain.
    vm_compute. split; [discriminate | reflexivity].
  - destruct (maxMessageSize_is_mtu_less_overhead 1280 unconfigured)
      as (_ & _ & Hdef).
    destruct (Hdef eq_refl) as [_ Hplain]. apply Hplain.
    vm_compute. split; [discriminate | reflexivity].
Defined.

(** ** Media descriptions: the extension table *)

Lemma firstUnused_lowest (used : Z -> bool) (n : nat) (c : Z) :
  (exists k, c <= k < c + Z.of_nat n /\ used k = false) ->
  let r := Description.firstUnused used c n in
  c <= r < c + Z.of_nat n
  /\ used r = false
  /\ forall j, c <= j < r -> used j = true.
Proof.
  revert c. induction n as [|n IH]; intros c (k & Hk & Hfree).
  - lia.
  - cbn [Description.firstUnused].
    destruct (used c) eqn:Ec.
    + assert (Hne : k <> c) by congruence.
      destruct (IH (c + 1)) as (Hr & Hu & Hlow).
      { exists k. split; [lia | exact Hfree]. }
      cbv zeta. split; [lia|]. split; [exact Hu|].
      intros j Hj. destruct (Z.eq_dec j c) as [->|Hjc]; [exact Ec|].
      apply Hlow. lia.
    + cbv zeta. split; [lia|]. split; [exact Ec|]. intros j Hj. lia.
Qed.

Lemma nextExtId_lowest (d : Description.Media) (k : Z) :
  lowestUnusedExtId d k -> Description.nextExtId d = k.
Proof.
  intros (Hk & Hfree & Hlow). unfold Description.nextExtId.
  destruct (firstUnused_lowest (Description.usedExtId d) 14 1)
    as (Hr & Hu & Hl).
  { exists k. split; [lia | exact Hfree]. }
  set (r := Description.firstUnused (Description.usedExtId d) 1 14) in *.
  destruct (Z.lt_trichotomy r k) as [Hlt | [Heq | Hgt]]; [|exact Heq|].
  - rewrite Hlow in Hu by lia. discriminate.
  - rewrite Hl in Hfree by lia. discriminate.
Qed.

Lemma countUri_findExtId_None (d : Description.Media) (u : string) :
  Description.findExtId d u = None -> Description.countUri d u = 0%nat.
Proof.
  unfold Description.findExtId, Description.countUri.
  induction (Description.extMaps d) as [|e es IH]; [reflexivity|].
  cbn. destruct (String.eqb (Description.uri e) u); [discriminate|exact IH].
Qed.

Lemma countUri_findExtId_Some (d : Description.Media) (u : string) (i : Z) :
  Description.findExtId d u = Some i -> (1 <= Description.countUri d u)%nat.
Proof.
  unfold Description.findExtId, Description.countUri.
  induction (Description.extMaps d) as [|e es IH]; [discriminate|].
  cbn. destruct (String.eqb (Description.uri e) u); cbn; [lia | exact IH].
Qed.

Lemma countUri_addExtMap (d : Description.Media) (u : string) (i : Z) :
  Description.countUri (Description.addExtMap d (Description.mkExtMap i u)) u
  = S (Description.countUri d u).
Proof.
  unfold Description.countUri, Description.addExtMap. cbn.
  rewrite filter_app, length_app. cbn. rewrite String.eqb_refl. cbn. lia.
Qed.

Lemma findExtId_addExtMap (d : Description.Media) (u : string) (i : Z) :
  Description.findExtId d u = None ->
  Description.findExtId (Description.addExtMap d (Description.mkExtMap i u)) u
  = Some i.
Proof.
  unfold Description.findExtId, Description.addExtMap. cbn.
  induction (Description.extMaps d) as [|e es IH]; cbn.
  - rewrite String.eqb_refl. reflexivity.
  - destruct (String.eqb (Description.uri e) u); [discriminate | exact IH].
Qed.

(** ** [setDescription] and the constructor *)

Section SetDescription.

Context {Handler Transport RecvQueue App : Type}.
Context {handlerOps : MediaHandler Handler}
        {queueOps : Queue.Ops RecvQueue}.

(** The description and id that [setDescription] stores for [desc]. *)
Lemma setDescription_stores (desc : Description.Media)
    (w w' : @World Handler Transport RecvQueue App) :
  setDescription desc w = (Return tt, w') ->
  Description.mid desc = mid w
  /\ exists stored i handler',
       self w' = set_mMediaHandler handler'
                   (set_description stored (Some i) (self w))
       /\ heap w' = heap w
       /\ COUNTER_MEDIA_BAD_DIRECTION w' = COUNTER_MEDIA_BAD_DIRECTION w
       /\ COUNTER_QUEUE_FULL w' = COUNTER_QUEUE_FULL w
       /\ events w' = events w
       /\ match Description.findExtId desc sdesMidExtUri with
          | Some j => stored = desc /\ i = j
          | None =>
              i = Description.nextExtId desc
              /\ stored = Description.addExtMap desc
                            (Description.mkExtMap i sdesMidExtUri)
          end.
Proof.
  unfold setDescription, bind, get, mid.
  destruct (String.eqb (Description.mid desc)
              (Description.mid (mMediaDescription (self w)))) eqn:Emid;
    cbn [negb]; [|discriminate].
  apply String.eqb_eq in Emid. intros Hrun. split; [exact Emid|].
  destruct (Description.findExtId desc sdesMidExtUri) as [j|] eqn:Efind.
  - exists desc, j.
    cbn in Hrun. destruct (mMediaHandler (self w)) as [h|] eqn:Eh;
      cbn in Hrun; injection Hrun as <-.
    + eexists. cbn. repeat split; reflexivity.
    + exists (mMediaHandler (self w)). cbn. repeat split; reflexivity.
  - eexists _, (Description.nextExtId desc).
    cbn in Hrun. destruct (mMediaHandler (self w)) as [h|] eqn:Eh;
      cbn in Hrun; injection Hrun as <-.
    + eexists. cbn. repeat split; reflexivity.
    + exists (mMediaHandler (self w)). cbn. repeat split; reflexivity.
Qed.

(** C5. A description whose mid differs from the track's mid is refused
    with the configuration-mismatch error, and nothing changes: the world
    after the call is the world before it, so [description()] still
    returns the prior description with its mid, direction and extension
    table. *)
Theorem setDescription_mid_mismatch (desc : Description.Media)
    (w : @World Handler Transport RecvQueue App) :
  Description.mid desc <> mid w ->
  setDescription desc w = (Throw ConfigurationMismatch, w)
  /\ ConfigurationMismatch
     = logic_error "Media description mid does not match track mid"
  /\ description (snd (setDescription desc w)) = description w.
Proof.
  intros Hne.
  assert (Hrun : setDescription desc w = (Throw ConfigurationMismatch, w)).
  { unfold setDescription, bind, get, throw.
    apply String.eqb_neq in Hne. unfold mid in Hne. now rewrite Hne. }
  rewrite Hrun. repeat split.
Qed.

End SetDescription.

Lemma setDescription_mid_mismatch_witness :
  let w := Scenario.world Scenario.Fanout (Scenario.heapOf []) 1024 None
             Description.SendRecv in
  let desc := Scenario.audio "1" Description.RecvOnly in
  setDescription desc w = (Throw ConfigurationMismatch, w)
  /\ description (snd (setDescription desc w))
     = Description.mkMedia "0" Description.SendRecv "audio"
         [Description.mkExtMap 1 sdesMidExtUri].
Proof.
  intros w desc.
  destruct (setDescription_mid_mismatch desc w) as (Hthrow & _ & Hdesc).
  - vm_compute. discriminate.
  - split; [exact Hthrow | rewrite Hdesc; reflexivity].
Defined.

(** ** What sending leaves alone *)

Section Frames.

Context {Handler Transport RecvQueue App : Type}.
Context {handlerOps : MediaHandler Handler}
        {transportOps : DtlsSrtpTransport Transport}
        {queueOps : Queue.Ops RecvQueue}.
Variable IsRtcp : binary -> bool.
Variable RTC_ENABLE_MEDIA : bool.

Lemma sendFrame_refl
    (w : @World Handler Transport RecvQueue App) : sendFrame w w.
Proof. unfold sendFrame. repeat split. Qed.

Lemma sendFrame_trans (w1 w2 w3 : @World Handler Transport RecvQueue App) :
  sendFrame w1 w2 -> sendFrame w2 w3 -> sendFrame w1 w3.
Proof.
  unfold sendFrame.
  intros (A1 & A2 & A3 & A4 & A5 & A6 & A7 & A8)
         (B1 & B2 & B3 & B4 & B5 & B6 & B7 & B8).
  repeat split; congruence.
Qed.

Lemma transportSend_frame (m : loc)
    (w : @World Handler Transport RecvQueue App) :
  sendFrame w (snd (transportSend RTC_ENABLE_MEDIA m w)).
Proof.
  unfold transportSend. destruct RTC_ENABLE_MEDIA; [|apply sendFrame_refl].
  unfold bind, get. cbn.
  destruct (mDtlsSrtpTransport (self w)) as [tr|]; [|apply sendFrame_refl].
  cbn. destruct (sendMedia _ tr) as [sent tr']. cbn.
  unfold sendFrame. cbn. repeat split.
Qed.

Lemma sendNow_frame (ms : list loc)
    (w : @World Handler Transport RecvQueue App) :
  sendFrame w (snd (sendNow RTC_ENABLE_MEDIA ms w)).
Proof.
  revert w. induction ms as [|m ms IH]; intros w; [apply sendFrame_refl|].
  cbn [sendNow]. unfold bind.
  pose proof (transportSend_frame m w) as Hm.
  destruct (transportSend RTC_ENABLE_MEDIA m w) as [[r|e] w1]; cbn in *.
  - eapply sendFrame_trans; [exact Hm | apply IH].
  - exact Hm.
Qed.

Lemma sendEach_frame (ms : list loc) (r : bool)
    (w : @World Handler Transport RecvQueue App) :
  sendFrame w (snd (sendEach RTC_ENABLE_MEDIA ms r w)).
Proof.
  revert r w. induction ms as [|m ms IH]; intros r w; [apply sendFrame_refl|].
  cbn [sendEach]. unfold bind.
  pose proof (transportSend_frame m w) as Hm.
  destruct (transportSend RTC_ENABLE_MEDIA m w) as [[r'|e] w1]; cbn in *.
  - eapply sendFrame_trans; [exact Hm | apply IH].
  - exact Hm.
Qed.

Lemma installChainResult_frame (c : ChainResult Handler)
    (w : @World Handler Transport RecvQueue App) :
  fst (installChainResult c w) = Return tt
  /\ sendFrame w (snd (installChainResult c w)).
Proof. unfold sendFrame. cbn. repeat split. Qed.

Lemma incomingBatch_frame (p : loc)
    (w : @World Handler Transport RecvQueue App) :
  sendFrame w (snd (incomingBatch RTC_ENABLE_MEDIA p w)).
Proof.
  unfold incomingBatch, bind, get, getMediaHandler.
  destruct (mMediaHandler (self w)) as [h|]; [|apply sendFrame_refl].
  set (c := incomingChain [p] (heap w) h).
  destruct (installChainResult_frame c w) as [Hr Hf].
  destruct (installChainResult c w) as [r w1]. cbn in Hr, Hf. subst r.
  pose proof (sendNow_frame (chain_sent c) w1) as Hs.
  destruct (sendNow RTC_ENABLE_MEDIA (chain_sent c) w1) as [[u|e] w2];
    cbn in *; eapply sendFrame_trans; eassumption.
Qed.

(** *** The admission loop *)

Lemma admitBatch_admission (ms : list loc)
    (w : @World Handler Transport RecvQueue App) :
  fst (admitBatch ms w) = Return tt
  /\ exists admitted, admission w ms admitted (snd (admitBatch ms w)).
Proof.
  revert w. induction ms as [|m rest IH]; intros w.
  - split; [reflexivity|]. exists []. unfold admission. cbn.
    split; [exists []; repeat split; congruence|].
    split; [intros k Hk; lia|].
    split; [now destruct (self w)|].
    split; [now rewrite app_nil_r|]. split; reflexivity.
  - cbn [admitBatch]. unfold bind, get.
    destruct (Queue.full (mRecvQueue (self w))) eqn:Efull.
    + split; [reflexivity|]. exists []. unfold admission. cbn.
      split.
      { exists (m :: rest). split; [reflexivity|].
        split; [discriminate|]. intros _. split; [exact Efull | reflexivity]. }
      split; [intros k Hk; lia|].
      split; [now destruct (self w)|].
      split; [now rewrite app_nil_r|]. split; reflexivity.
    + cbn.
      set (q1 := Queue.push (amountFunction w) m (mRecvQueue (self w))).
      set (w1 := mkWorld (set_mRecvQueue q1 (self w)) (heap w)
                   (COUNTER_MEDIA_BAD_DIRECTION w) (COUNTER_QUEUE_FULL w)
                   (events w ++ [Available (Queue.size q1)])).
      destruct (IH w1) as [Hret (admitted & Hadm)].
      split; [exact Hret|]. exists (m :: admitted).
      destruct Hadm as ((abandoned & Hms & Hnone & Hsome)
                        & Hnotfull & Hself & Hev & Hheap & Hbad).
      unfold admission.
      split.
      { exists abandoned. split; [cbn; now rewrite Hms|].
        split; [exact Hnone | exact Hsome]. }
      split.
      { intros [|k] Hk; [exact Efull|]. cbn in Hk.
        apply (Hnotfull k). lia. }
      split; [rewrite Hself; reflexivity|].
      split; [rewrite Hev; cbn; now rewrite <- app_assoc|].
      split; [exact Hheap | exact Hbad].
Qed.

Lemma admitBatch_keeps (ms : list loc)
    (w : @World Handler Transport RecvQueue App) :
  let w' := snd (admitBatch ms w) in
  COUNTER_MEDIA_BAD_DIRECTION w' = COUNTER_MEDIA_BAD_DIRECTION w
  /\ mIsClosed (self w') = mIsClosed (self w)
  /\ messageCallback (self w') = messageCallback (self w)
  /\ closedEvents w' = closedEvents w.
Proof.
  destruct (admitBatch_admission ms w) as [_ (admitted & Hadm)].
  destruct Hadm as (_ & _ & Hself & Hev & _ & Hbad).
  cbv zeta. rewrite Hself. repeat split; try assumption.
  unfold closedEvents. rewrite Hev, filter_app, length_app.
  assert (Hnone : forall hp l q,
             filter Event_is_Closed (availableEvents hp l q) = []).
  { intros hp l. induction l as [|x l IHl]; intros q; [reflexivity|].
    cbn. apply IHl. }
  rewrite Hnone. cbn. lia.
Qed.

End Frames.

(** ** The direction gate *)

Lemma forbidsReceiving_iff (dir : Description.Direction) :
  forbidsReceiving dir = true
  <-> dir = Description.SendOnly \/ dir = Description.Inactive.
Proof.
  destruct dir; cbn; split; intros Hd; try reflexivity; try discriminate;
    try (now left); try (now right); destruct Hd; discriminate.
Qed.

Lemma forbidsSending_iff (dir : Description.Direction) :
  forbidsSending dir = true
  <-> dir = Description.RecvOnly \/ dir = Description.Inactive.
Proof.
  destruct dir; cbn; split; intros Hd; try reflexivity; try discriminate;
    try (now left); try (now right); destruct Hd; discriminate.
Qed.

Section Gate.

Context {Handler Transport RecvQueue App : Type}.
Context {handlerOps : MediaHandler Handler}
        {transportOps : DtlsSrtpTransport Transport}
        {queueOps : Queue.Ops RecvQueue}.
Variable IsRtcp : binary -> bool.
Variable RTC_ENABLE_MEDIA : bool.

Lemma incoming_permitted
    (w : @World Handler Transport RecvQueue App) (p : loc) :
  forbidsReceiving (direction w)
    && negb (MessageType_eqb (type (heap w p)) Control) = false ->
  incoming RTC_ENABLE_MEDIA (Some p) w
  = bind (incomingBatch RTC_ENABLE_MEDIA p) admitBatch w
  /\ COUNTER_MEDIA_BAD_DIRECTION (snd (incoming RTC_ENABLE_MEDIA (Some p) w))
     = COUNTER_MEDIA_BAD_DIRECTION w.
Proof.
  intros Hgate.
  assert (Heq : incoming RTC_ENABLE_MEDIA (Some p) w
                = bind (incomingBatch RTC_ENABLE_MEDIA p) admitBatch w).
  { unfold incoming at 1. unfold bind at 1. unfold get.
    now rewrite Hgate. }
  split; [exact Heq|]. rewrite Heq. unfold bind.
  pose proof (incomingBatch_frame RTC_ENABLE_MEDIA p w) as Hf.
  destruct (incomingBatch RTC_ENABLE_MEDIA p w) as [[ms|e] w1]; cbn in *.
  - destruct (admitBatch_keeps ms w1) as (Hbad & _).
    rewrite Hbad. apply Hf.
  - apply Hf.
Qed.

Lemma incoming_forbidden
    (w : @World Handler Transport RecvQueue App) (p : loc) :
  forbidsReceiving (direction w)
    && negb (MessageType_eqb (type (heap w p)) Control) = true ->
  incomingDrops RTC_ENABLE_MEDIA w p.
Proof.
  intros Hgate. unfold incomingDrops, incoming, bind, get.
  now rewrite Hgate.
Qed.


Lemma reclassifyRtcp_outcome (handler : option Handler) (p : loc)
    (w : @World Handler Transport RecvQueue App) :
  fst (reclassifyRtcp IsRtcp handler p w) = Return tt
  /\ sendFrame w (snd (reclassifyRtcp IsRtcp handler p w))
  /\ self (snd (reclassifyRtcp IsRtcp handler p w)) = self w.
Proof.
  unfold reclassifyRtcp, bind, get.
  destruct (match handler with None => true | Some _ => false end
            && IsRtcp (data (heap w p)));
    cbn; repeat split; apply sendFrame_refl.
Qed.

Lemma sendThrough_frame (handler : option Handler) (p : loc)
    (w : @World Handler Transport RecvQueue App) :
  sendFrame w (snd (sendThrough RTC_ENABLE_MEDIA handler p w)).
Proof.
  unfold sendThrough. destruct handler as [h|];
    [|apply transportSend_frame].
  unfold bind, get.
  set (c := outgoingChain [p] (heap w) h).
  destruct (installChainResult_frame c w) as [Hr Hf].
  destruct (installChainResult c w) as [r w1]. cbn in Hr, Hf. subst r.
  pose proof (sendNow_frame RTC_ENABLE_MEDIA (chain_sent c) w1) as Hs.
  destruct (sendNow RTC_ENABLE_MEDIA (chain_sent c) w1) as [[u|e] w2];
    cbn in *.
  - eapply sendFrame_trans; [exact Hf|].
    eapply sendFrame_trans; [exact Hs | apply sendEach_frame].
  - eapply sendFrame_trans; eassumption.
Qed.

(** The type [outgoing] tests at its gate is [outgoingKind]. *)
Lemma reclassifyRtcp_kind (p : loc)
    (w : @World Handler Transport RecvQueue App) :
  type (heap (snd (reclassifyRtcp IsRtcp (getMediaHandler w) p w)) p)
  = outgoingKind IsRtcp w p.
Proof.
  unfold reclassifyRtcp, outgoingKind, bind, get, getMediaHandler.
  destruct (match mMediaHandler (self w) with None => true | Some _ => false end
            && IsRtcp (data (heap w p))); cbn; [|reflexivity].
  unfold heap_set. now rewrite Nat.eqb_refl.
Qed.

Lemma outgoing_open (w : @World Handler Transport RecvQueue App) (p : loc) :
  mIsClosed (self w) = false ->
  let w1 := snd (reclassifyRtcp IsRtcp (getMediaHandler w) p w) in
  outgoing IsRtcp RTC_ENABLE_MEDIA p w
  = if forbidsSending (direction w)
       && negb (MessageType_eqb (outgoingKind IsRtcp w p) Control)
    then (Return false, droppedBadDirection w1)
    else sendThrough RTC_ENABLE_MEDIA (getMediaHandler w) p w1.
Proof.
  intros Hopen. cbv zeta.
  rewrite <- reclassifyRtcp_kind.
  unfold outgoing. unfold bind at 1. unfold get at 1. rewrite Hopen.
  unfold bind at 1.
  destruct (reclassifyRtcp_outcome (getMediaHandler w) p w)
    as (Hr & _ & Hself).
  destruct (reclassifyRtcp IsRtcp (getMediaHandler w) p w) as [r w1].
  cbn in Hr, Hself |- *. subst r.
  unfold direction. rewrite Hself.
  destruct (forbidsSending (Description.direction (mMediaDescription (self w)))
            && negb (MessageType_eqb (type (heap w1 p)) Control));
    reflexivity.
Qed.

Lemma outgoing_keeps_counter_unless_forbidden
    (w : @World Handler Transport RecvQueue App) (p : loc) :
  mIsClosed (self w) = false ->
  forbidsSending (direction w)
    && negb (MessageType_eqb (outgoingKind IsRtcp w p) Control) = false ->
  COUNTER_MEDIA_BAD_DIRECTION (snd (outgoing IsRtcp RTC_ENABLE_MEDIA p w))
  = COUNTER_MEDIA_BAD_DIRECTION w.
Proof.
  intros Hopen Hgate. rewrite (outgoing_open w p Hopen). cbv zeta.
  rewrite Hgate.
  destruct (reclassifyRtcp_outcome (getMediaHandler w) p w)
    as (_ & Hf & _).
  pose proof (sendThrough_frame (getMediaHandler w) p
                (snd (reclassifyRtcp IsRtcp (getMediaHandler w) p w))) as Hs.
  destruct (sendFrame_trans _ _ _ Hf Hs) as (Hbad & _). exact Hbad.
Qed.

(** C3. Direction gating follows the table.  On the way in, a Data packet
    is dropped (the call returns with one more on the bad-direction
    counter and nothing else touched, the queue included) exactly when
    the direction is SendOnly or Inactive.  On the way out of an open
    track, a packet that is Data at the gate is dropped, and [false]
    returned, exactly when the direction is RecvOnly or Inactive.  A
    Control packet is never dropped by the gate, whatever the direction:
    it goes on to the chain and the queue, or to the transport, and the
    bad-direction counter stays as it is. *)
Theorem direction_gate_matches_table
    (w : @World Handler Transport RecvQueue App) (p : loc) :
  (type (heap w p) = Data ->
     (incomingDrops RTC_ENABLE_MEDIA w p
      <-> direction w = Description.SendOnly
          \/ direction w = Description.Inactive))
  /\ (type (heap w p) = Control ->
        ~ incomingDrops RTC_ENABLE_MEDIA w p
        /\ incoming RTC_ENABLE_MEDIA (Some p) w
           = bind (incomingBatch RTC_ENABLE_MEDIA p) admitBatch w
        /\ COUNTER_MEDIA_BAD_DIRECTION
             (snd (incoming RTC_ENABLE_MEDIA (Some p) w))
           = COUNTER_MEDIA_BAD_DIRECTION w)
  /\ (mIsClosed (self w) = false ->
      outgoingKind IsRtcp w p = Data ->
        (outgoingDrops IsRtcp RTC_ENABLE_MEDIA w p
         <-> direction w = Description.RecvOnly
             \/ direction w = Description.Inactive))
  /\ (mIsClosed (self w) = false ->
      outgoingKind IsRtcp w p = Control ->
        ~ outgoingDrops IsRtcp RTC_ENABLE_MEDIA w p
        /\ outgoing IsRtcp RTC_ENABLE_MEDIA p w
           = sendThrough RTC_ENABLE_MEDIA (getMediaHandler w) p
               (snd (reclassifyRtcp IsRtcp (getMediaHandler w) p w))
        /\ COUNTER_MEDIA_BAD_DIRECTION
             (snd (outgoing IsRtcp RTC_ENABLE_MEDIA p w))
           = COUNTER_MEDIA_BAD_DIRECTION w).
Proof.
  split; [|split; [|split]].
  - intros Hkind. rewrite <- forbidsReceiving_iff. split.
    + intros Hdrop.
      destruct (forbidsReceiving (direction w)) eqn:Ef; [reflexivity|].
      exfalso.
      destruct (incoming_permitted w p) as [_ Hc];
        [now rewrite Ef|].
      unfold incomingDrops in Hdrop. rewrite Hdrop in Hc. cbn in Hc. lia.
    + intros Hf. apply incoming_forbidden. now rewrite Hf, Hkind.
  - intros Hkind.
    destruct (incoming_permitted w p) as [Heq Hc].
    { rewrite Hkind. cbn. apply andb_false_r. }
    split; [|split; assumption].
    unfold incomingDrops. intros Hdrop. rewrite Hdrop in Hc. cbn in Hc. lia.
  - intros Hopen Hkind. rewrite <- forbidsSending_iff. split.
    + intros Hdrop.
      destruct (forbidsSending (direction w)) eqn:Ef; [reflexivity|].
      exfalso.
      pose proof (outgoing_keeps_counter_unless_forbidden w p Hopen) as Hc.
      rewrite Ef in Hc. specialize (Hc eq_refl).
      unfold outgoingDrops in Hdrop. rewrite Hdrop in Hc. cbn in Hc. lia.
    + intros Hf. unfold outgoingDrops.
      rewrite (outgoing_open w p Hopen). cbv zeta.
      rewrite Hf, Hkind. cbn.
      f_equal. unfold reclassifyRtcp, bind, get.
      unfold outgoingKind, getMediaHandler in *.
      destruct (match mMediaHandler (self w) with None => true | Some _ => false end
                && IsRtcp (data (heap w p))); [discriminate|reflexivity].
  - intros Hopen Hkind.
    assert (Hgate : forbidsSending (direction w)
                    && negb (MessageType_eqb (outgoingKind IsRtcp w p) Control)
                    = false)
      by (rewrite Hkind; cbn; apply andb_false_r).
    pose proof (outgoing_keeps_counter_unless_forbidden w p Hopen Hgate) as Hc.
    split; [|split].
    + unfold outgoingDrops. intros Hdrop. rewrite Hdrop in Hc. cbn in Hc. lia.
    + rewrite (outgoing_open w p Hopen). cbv zeta. now rewrite Hgate.
    + exact Hc.
Qed.

End Gate.

Lemma direction_gate_matches_table_witness :
  let IsRtcp := Rtp.IsRtcp_by_payload_type in
  let sendOnly := Scenario.world Scenario.Fanout
                    (Scenario.heapOf Scenario.plainRtp) 1024 None
                    Description.SendOnly in
  let recvOnly := Scenario.world Scenario.Fanout
                    (Scenario.heapOf Scenario.plainRtp) 1024 None
                    Description.RecvOnly in
  incomingDrops true sendOnly 0%nat
  /\ ~ incomingDrops true recvOnly 0%nat
  /\ outgoingDrops IsRtcp true recvOnly 0%nat
  /\ ~ outgoingDrops IsRtcp true sendOnly 0%nat.
Proof.
  intros IsRtcp sendOnly recvOnly.
  destruct (direction_gate_matches_table IsRtcp true sendOnly 0%nat)
    as (Hin_s & _ & Hout_s & _).
  destruct (direction_gate_matches_table IsRtcp true recvOnly 0%nat)
    as (Hin_r & _ & Hout_r & _).
  specialize (Hin_s eq_refl). specialize (Hin_r eq_refl).
  specialize (Hout_s eq_refl eq_refl). specialize (Hout_r eq_refl eq_refl).
  split; [apply Hin_s; now left|].
  split; [intros Hd; apply Hin_r in Hd; destruct Hd; discriminate|].
  split; [apply Hout_r; now left|].
  intros Hd; apply Hout_s in Hd; destruct Hd; discriminate.
Defined.

(** ** Batch admission *)

Section Admission.

Context {Handler Transport RecvQueue App : Type}.
Context {handlerOps : MediaHandler Handler}
        {transportOps : DtlsSrtpTransport Transport}
        {queueOps : Queue.Ops RecvQueue}.
Variable RTC_ENABLE_MEDIA : bool.

(** Past the gate, [incoming] admits the batch that the chain left, up to
    the first packet that finds the queue full. *)
Lemma incoming_admission
    (w : @World Handler Transport RecvQueue App) (p : loc) (ms : list loc)
    (w1 : @World Handler Transport RecvQueue App) :
  forbidsReceiving (direction w)
    && negb (MessageType_eqb (type (heap w p)) Control) = false ->
  incomingBatch RTC_ENABLE_MEDIA p w = (Return ms, w1) ->
  fst (incoming RTC_ENABLE_MEDIA (Some p) w) = Return tt
  /\ exists admitted,
       admission w1 ms admitted (snd (incoming RTC_ENABLE_MEDIA (Some p) w)).
Proof.
  intros Hgate Hbatch.
  destruct (incoming_permitted RTC_ENABLE_MEDIA w p Hgate) as [Heq _].
  rewrite Heq. unfold bind. rewrite Hbatch.
  apply admitBatch_admission.
Qed.

End Admission.

(** C6. Past the direction gate, [incoming] takes the batch that the
    transform chain left and admits it in order: every admitted packet
    found the queue not full, was pushed, and fired "available" with the
    item count right after its push; at the first packet that finds the
    queue full the full-queue counter goes up by one and that packet and
    all later ones are abandoned, none of them pushed.  In particular, on a
    queue whose capacity is the weight of one packet, a batch of three such
    packets puts the first in the queue with one "available" event, counts
    one full-queue drop, and leaves the second and third out. *)
Theorem incoming_admits_until_queue_full :
  (forall (Handler Transport RecvQueue App : Type)
          (handlerOps : MediaHandler Handler)
          (transportOps : DtlsSrtpTransport Transport)
          (queueOps : Queue.Ops RecvQueue)
          (RTC_ENABLE_MEDIA : bool)
          (w : @World Handler Transport RecvQueue App) (p : loc)
          (ms : list loc) (w1 : @World Handler Transport RecvQueue App),
      forbidsReceiving (direction w)
        && negb (MessageType_eqb (type (heap w p)) Control) = false ->
      incomingBatch RTC_ENABLE_MEDIA p w = (Return ms, w1) ->
      fst (incoming RTC_ENABLE_MEDIA (Some p) w) = Return tt
      /\ exists admitted,
           admission w1 ms admitted
             (snd (incoming RTC_ENABLE_MEDIA (Some p) w)))
  /\ (let w := Scenario.world Scenario.Fanout Scenario.threeByteHeap 3
                 (Some (Scenario.mkFanout [1; 2]%nat)) Description.RecvOnly in
      let w' := snd (incoming true (Some 0%nat) w) in
      incomingBatch true 0%nat w = (Return [0; 1; 2]%nat, w)
      /\ amountFunction w 0%nat = BoundedByteQueue.mLimit (mRecvQueue (self w))
      /\ BoundedByteQueue.mQueue (mRecvQueue (self w')) = [0%nat]
      /\ Queue.amount (mRecvQueue (self w')) = 3
      /\ events w' = [Available 1]
      /\ COUNTER_QUEUE_FULL w' = 1).
Proof.
  split.
  - intros. now apply incoming_admission.
  - cbv zeta. repeat split; reflexivity.
Qed.

Lemma incoming_admits_until_queue_full_witness :
  let w := Scenario.world Scenario.Fanout Scenario.threeByteHeap 3
             (Some (Scenario.mkFanout [1; 2]%nat)) Description.RecvOnly in
  fst (incoming true (Some 0%nat) w) = Return tt
  /\ exists admitted,
       admission w [0; 1; 2]%nat admitted (snd (incoming true (Some 0%nat) w)).
Proof.
  intros w.
  apply (proj1 incoming_admits_until_queue_full _ _ _ _ _ _ _ true w 0%nat
           [0; 1; 2]%nat w); reflexivity.
Defined.

(** ** The stream-identifier mapping and the constructor *)

Section Construction.

Context {Handler Transport RecvQueue App : Type}.
Context {handlerOps : MediaHandler Handler}
        {transportOps : DtlsSrtpTransport Transport}
        {queueOps : Queue.Ops RecvQueue}.
Variable RECV_QUEUE_LIMIT : Z.
Variable defaultMedia : Description.Media.

(** A constructor call that returns ran [setDescription] on the freshly
    initialised members, and then installed the discarding callback if
    the direction is SendOnly. *)
Lemma Track_ctor_inv (pc : option PeerConnection) (desc : Description.Media)
    (w w' : @World Handler Transport RecvQueue App) :
  Track_ctor RECV_QUEUE_LIMIT defaultMedia pc desc w = (Return tt, w') ->
  exists w1,
    setDescription desc
      (with_self (initialTrack RECV_QUEUE_LIMIT defaultMedia pc) w)
    = (Return tt, w1)
    /\ w' = if Description.Direction_eqb (direction w1) Description.SendOnly
            then with_self
                   (set_messageCallback (Some discardMessage) (self w1)) w1
            else w1.
Proof.
  unfold Track_ctor. unfold bind at 1. cbn [modify].
  unfold bind at 1.
  destruct (setDescription desc
              (with_self (initialTrack RECV_QUEUE_LIMIT defaultMedia pc) w))
    as [[[]|e] w1]; [|discriminate].
  unfold bind, get.
  intros Hrun. exists w1. split; [reflexivity|].
  destruct (Description.Direction_eqb (direction w1) Description.SendOnly);
    cbn in Hrun; now injection Hrun as <-.
Qed.

Lemma stored_description (desc : Description.Media)
    (w w' : @World Handler Transport RecvQueue App) :
  setDescription desc w = (Return tt, w') ->
  (Description.countUri desc sdesMidExtUri <= 1)%nat ->
  (Description.findExtId desc sdesMidExtUri = None ->
   exists k, lowestUnusedExtId desc k) ->
  let stored := description w' in
  Description.countUri stored sdesMidExtUri = 1%nat
  /\ Description.findExtId stored sdesMidExtUri = mSdesMidExtId (self w')
  /\ (forall i, Description.findExtId desc sdesMidExtUri = Some i ->
        stored = desc /\ mSdesMidExtId (self w') = Some i)
  /\ (Description.findExtId desc sdesMidExtUri = None ->
        exists k, lowestUnusedExtId desc k
                  /\ mSdesMidExtId (self w') = Some k
                  /\ stored = Description.addExtMap desc
                                (Description.mkExtMap k sdesMidExtUri)).
Proof.
  intros Hrun Hfun Hfree.
  destruct (setDescription_stores desc w w' Hrun)
    as (_ & stored & i & h' & Hself & _ & _ & _ & _ & Hcase).
  unfold description. rewrite Hself. cbn.
  destruct (Description.findExtId desc sdesMidExtUri) as [j|] eqn:Efind.
  - destruct Hcase as [-> ->].
    pose proof (countUri_findExtId_Some desc sdesMidExtUri j Efind).
    split; [lia|]. split; [exact Efind|].
    split; [intros i [= <-]; split; reflexivity | discriminate].
  - destruct Hcase as [Hi ->].
    destruct (Hfree eq_refl) as (k & Hk).
    rewrite (nextExtId_lowest desc k Hk) in Hi. subst i.
    split.
    { rewrite countUri_addExtMap.
      now rewrite (countUri_findExtId_None desc sdesMidExtUri Efind). }
    split; [now apply findExtId_addExtMap|].
    split; [discriminate|].
    intros _. exists k. repeat split; try reflexivity; apply Hk.
Qed.

(** C7. After a [setDescription] that returns, and likewise after the
    constructor, which runs it, the stored description maps the
    stream-identifier URI exactly once and [mSdesMidExtId] is the mapped
    id: an id that the given description already maps is kept and the
    description stored as given; otherwise the id is the lowest of 1..14
    that the description does not use, and the stored description is the
    given one with that one mapping added.  (The given description maps
    the URI at most once, and has an unused id in 1..14 when it does not
    map the URI.)  Description and id are stored by one update of the
    track. *)
Theorem setDescription_maps_mid_extension_once
    (pc : option PeerConnection) (desc : Description.Media)
    (w w' : @World Handler Transport RecvQueue App) :
  setDescription desc w = (Return tt, w')
  \/ Track_ctor RECV_QUEUE_LIMIT defaultMedia pc desc w = (Return tt, w') ->
  (Description.countUri desc sdesMidExtUri <= 1)%nat ->
  (Description.findExtId desc sdesMidExtUri = None ->
   exists k, lowestUnusedExtId desc k) ->
  let stored := description w' in
  Description.countUri stored sdesMidExtUri = 1%nat
  /\ Description.findExtId stored sdesMidExtUri = mSdesMidExtId (self w')
  /\ (forall i, Description.findExtId desc sdesMidExtUri = Some i ->
        stored = desc /\ mSdesMidExtId (self w') = Some i)
  /\ (Description.findExtId desc sdesMidExtUri = None ->
        exists k, lowestUnusedExtId desc k
                  /\ mSdesMidExtId (self w') = Some k
                  /\ stored = Description.addExtMap desc
                                (Description.mkExtMap k sdesMidExtUri))
  /\ (setDescription desc w = (Return tt, w') ->
        exists handler',
          self w' = set_mMediaHandler handler'
                      (set_description stored (mSdesMidExtId (self w'))
                         (self w))).
Proof.
  intros [Hset | Hctor] Hfun Hfree.
  - destruct (stored_description desc w w' Hset Hfun Hfree)
      as (H1 & H2 & H3 & H4).
    cbv zeta. split; [exact H1|]. split; [exact H2|].
    split; [exact H3|]. split; [exact H4|].
    intros _.
    destruct (setDescription_stores desc w w' Hset)
      as (_ & stored & i & h' & Hself & _).
    exists h'. unfold description. rewrite Hself. reflexivity.
  - destruct (Track_ctor_inv pc desc w w' Hctor) as (w1 & Hset & Hw').
    destruct (stored_description desc _ w1 Hset Hfun Hfree)
      as (H1 & H2 & H3 & H4).
    assert (Hd : description w' = description w1
                 /\ mSdesMidExtId (self w') = mSdesMidExtId (self w1)).
    { rewrite Hw'.
      destruct (Description.Direction_eqb (direction w1) Description.SendOnly);
        split; reflexivity. }
    destruct Hd as [Hd Hi]. cbv zeta. rewrite Hd, Hi.
    split; [exact H1|]. split; [exact H2|].
    split; [exact H3|]. split; [exact H4|].
    intros Hset'.
    destruct (setDescription_stores desc w w' Hset')
      as (_ & stored & i & h' & Hself & _).
    exists h'. rewrite <- Hi, <- Hd. unfold description. rewrite Hself.
    reflexivity.
Qed.

(** C10. A track constructed from a SendOnly description holds, as its
    message callback, the one that discards every message it is given,
    leaving the application as it was.  A Control packet that then
    arrives is not stopped by the direction gate (it goes on to the chain
    and the queue), and the discarding callback is still the one
    installed afterwards. *)
Theorem Track_ctor_sendonly_discards
    (RTC_ENABLE_MEDIA : bool) (pc : option PeerConnection)
    (desc : Description.Media) (w w' : @World Handler Transport RecvQueue App) :
  Track_ctor RECV_QUEUE_LIMIT defaultMedia pc desc w = (Return tt, w') ->
  Description.direction desc = Description.SendOnly ->
  direction w' = Description.SendOnly
  /\ messageCallback (self w') = Some discardMessage
  /\ (forall (m : message_variant) (app : App), discardMessage m app = app)
  /\ forall p, type (heap w' p) = Control ->
       incoming RTC_ENABLE_MEDIA (Some p) w'
       = bind (incomingBatch RTC_ENABLE_MEDIA p) admitBatch w'
       /\ COUNTER_MEDIA_BAD_DIRECTION
            (snd (incoming RTC_ENABLE_MEDIA (Some p) w'))
          = COUNTER_MEDIA_BAD_DIRECTION w'
       /\ messageCallback (self (snd (incoming RTC_ENABLE_MEDIA (Some p) w')))
          = Some discardMessage.
Proof.
  intros Hctor Hdir.
  destruct (Track_ctor_inv pc desc w w' Hctor) as (w1 & Hset & Hw').
  assert (Hdir1 : direction w1 = Description.SendOnly).
  { destruct (setDescription_stores desc _ w1 Hset)
      as (_ & stored & i & h' & Hself & _ & _ & _ & _ & Hcase).
    unfold direction. rewrite Hself. cbn.
    destruct (Description.findExtId desc sdesMidExtUri).
    - destruct Hcase as [-> _]. exact Hdir.
    - destruct Hcase as [_ ->]. exact Hdir. }
  rewrite Hdir1 in Hw'. cbn in Hw'.
  assert (Hcb : messageCallback (self w') = Some discardMessage)
    by (rewrite Hw'; reflexivity).
  split; [rewrite Hw'; exact Hdir1|].
  split; [exact Hcb|].
  split; [reflexivity|].
  intros p Hkind.
  destruct (incoming_permitted RTC_ENABLE_MEDIA w' p) as [Heq Hc].
  { rewrite Hkind. cbn. apply andb_false_r. }
  split; [exact Heq|]. split; [exact Hc|].
  rewrite Heq. unfold bind.
  pose proof (incomingBatch_frame RTC_ENABLE_MEDIA p w') as Hf.
  destruct (incomingBatch RTC_ENABLE_MEDIA p w') as [[ms|e] w2]; cbn in *.
  - destruct (admitBatch_keeps ms w2) as (_ & _ & Hk & _).
    rewrite Hk. destruct Hf as (_ & _ & _ & _ & Hm & _). congruence.
  - destruct Hf as (_ & _ & _ & _ & Hm & _). congruence.
Qed.

End Construction.

Lemma lowestUnused_example :
  lowestUnusedExtId
    (Description.mkMedia "0" Description.SendRecv "video"
       [Description.mkExtMap 1 "urn:ietf:params:rtp-hdrext:toffset";
        Description.mkExtMap 3 "urn:3gpp:video-orientation"]) 2.
Proof.
  split; [lia|]. split; [reflexivity|].
  intros j Hj. assert (j = 1) as -> by lia. reflexivity.
Defined.

Lemma setDescription_maps_mid_extension_once_witness :
  let desc :=
    Description.mkMedia "0" Description.SendRecv "video"
      [Description.mkExtMap 1 "urn:ietf:params:rtp-hdrext:toffset";
       Description.mkExtMap 3 "urn:3gpp:video-orientation"] in
  let w0 := Scenario.world Scenario.Fanout (Scenario.heapOf []) 1024 None
              Description.SendRecv in
  let w' := snd (Track_ctor 1024 (Scenario.audio "0" Description.Inactive)
                   None desc w0) in
  Description.countUri (description w') sdesMidExtUri = 1%nat
  /\ Description.findExtId (description w') sdesMidExtUri = Some 2
  /\ mSdesMidExtId (self w') = Some 2.
Proof.
  intros desc w0 w'.
  destruct (setDescription_maps_mid_extension_once 1024
              (Scenario.audio "0" Description.Inactive) None desc w0 w')
    as (Hcount & Hfind & _ & Hnew & _).
  - right. reflexivity.
  - vm_compute. apply le_S, le_n.
  - intros _. exists 2. exact lowestUnused_example.
  - split; [exact Hcount|].
    destruct (Hnew eq_refl) as (k & Hk & Hid & _).
    assert (k = 2) as ->.
    { rewrite <- (nextExtId_lowest desc k Hk). reflexivity. }
    split; [now rewrite Hfind | exact Hid].
Defined.

Lemma Track_ctor_sendonly_discards_witness :
  let desc := Scenario.audio "0" Description.SendOnly in
  let w0 := Scenario.world Scenario.Fanout
              (fun _ => mkMessage Scenario.rtcpRR Control 0) 1024 None
              Description.SendRecv in
  let w' := snd (Track_ctor 1024 (Scenario.audio "0" Description.Inactive)
                   None desc w0) in
  direction w' = Description.SendOnly
  /\ messageCallback (self w') = Some discardMessage
  /\ messageCallback (self (snd (incoming true (Some 0%nat) w')))
     = Some discardMessage.
Proof.
  intros desc w0 w'.
  destruct (Track_ctor_sendonly_discards 1024
              (Scenario.audio "0" Description.Inactive) true None desc w0 w')
    as (Hdir & Hcb & _ & Hin).
  - reflexivity.
  - reflexivity.
  - split; [exact Hdir|]. split; [exact Hcb|].
    destruct (Hin 0%nat eq_refl) as (_ & _ & Hkept). exact Hkept.
Defined.

(** ** Closing *)

Section Closing.

Context {Handler Transport RecvQueue App : Type}.
Context {handlerOps : MediaHandler Handler}
        {transportOps : DtlsSrtpTransport Transport}
        {queueOps : Queue.Ops RecvQueue}.
Variable IsRtcp : binary -> bool.
Variable RTC_ENABLE_MEDIA : bool.

Lemma sendFrame_sameClosed
    (w w' : @World Handler Transport RecvQueue App) : sendFrame w w' -> sameClosed w w'.
Proof.
  intros (_ & _ & Hev & Hcl & _). split; [exact Hcl|].
  unfold closedEvents. now rewrite Hev.
Qed.

Lemma closedEvents_app
    (w : @World Handler Transport RecvQueue App) (evs : list Event)
    (t : @Track Handler Transport RecvQueue App) (hp : Heap) (a b : Z) :
  closedEvents (mkWorld t hp a b (events w ++ evs))
  = (closedEvents w + List.length (filter Event_is_Closed evs))%nat.
Proof.
  unfold closedEvents. cbn. now rewrite filter_app, length_app.
Qed.

Lemma close_outcome (w : @World Handler Transport RecvQueue App) :
  close w
  = (Return tt,
     mkWorld
       (set_messageCallback None
          (set_mMediaHandler None (set_mIsClosed true (self w))))
       (heap w) (COUNTER_MEDIA_BAD_DIRECTION w) (COUNTER_QUEUE_FULL w)
       (events w ++ (if mIsClosed (self w) then [] else [Closed]))).
Proof.
  unfold close, bind, get. cbn.
  destruct (mIsClosed (self w)); cbn; [now rewrite app_nil_r | reflexivity].
Qed.

Lemma outgoing_closed
    (w : @World Handler Transport RecvQueue App) (message : loc) :
  mIsClosed (self w) = true ->
  outgoing IsRtcp RTC_ENABLE_MEDIA message w = (Throw TrackClosed, w).
Proof.
  intros Hc. unfold outgoing, bind, get, throw. now rewrite Hc.
Qed.

Lemma step_sameClosed (c : Call) (w : @World Handler Transport RecvQueue App) :
  c <> CallClose -> sameClosed w (step IsRtcp RTC_ENABLE_MEDIA c w).
Proof.
  intros Hc. destruct c as [desc|handler|transport| |message|message| |];
    cbn [step]; [| | |congruence| | | |].
  - unfold setDescription, bind, get.
    destruct (negb (String.eqb (Description.mid desc)
                      (Description.mid (mMediaDescription (self w)))));
      [split; reflexivity|].
    destruct (Description.findExtId desc sdesMidExtUri); cbn;
      destruct (mMediaHandler (self w)); split; reflexivity.
  - unfold setMediaHandler, bind, get.
    destruct handler; split; reflexivity.
  - unfold open, bind, get. cbn.
    destruct (mIsClosed (self w)) eqn:E; cbn; split; try reflexivity;
      try exact E.
    unfold closedEvents. cbn. rewrite filter_app, length_app. cbn. lia.
  - destruct message as [p|]; [|split; reflexivity].
    destruct (forbidsReceiving (direction w)
              && negb (MessageType_eqb (type (heap w p)) Control)) eqn:Eg.
    + rewrite (incoming_forbidden RTC_ENABLE_MEDIA w p Eg).
      split; reflexivity.
    + destruct (incoming_permitted RTC_ENABLE_MEDIA w p Eg) as [Heq _].
      rewrite Heq. unfold bind.
      pose proof (incomingBatch_frame RTC_ENABLE_MEDIA p w) as Hf.
      apply sendFrame_sameClosed in Hf.
      destruct (incomingBatch RTC_ENABLE_MEDIA p w) as [[ms|e] w1];
        cbn in *; [|exact Hf].
      destruct (admitBatch_keeps ms w1) as (_ & Hcl & _ & Hev).
      destruct Hf as [Hf1 Hf2]. split; congruence.
  - destruct (mIsClosed (self w)) eqn:E.
    + rewrite (outgoing_closed w message E). split; reflexivity.
    + rewrite (outgoing_open IsRtcp RTC_ENABLE_MEDIA w message E).
      cbv zeta.
      destruct (reclassifyRtcp_outcome IsRtcp (getMediaHandler w) message w)
        as (_ & Hf & _).
      destruct (forbidsSending (direction w)
                && negb (MessageType_eqb (outgoingKind IsRtcp w message)
                           Control)).
      * apply sendFrame_sameClosed in Hf. destruct Hf as [Hf1 Hf2].
        split; [exact Hf1|]. cbn. exact Hf2.
      * apply sendFrame_sameClosed.
        eapply sendFrame_trans; [exact Hf | apply sendThrough_frame].
  - unfold receive, bind, get.
    destruct (Queue.pop (amountFunction w) (mRecvQueue (self w)))
      as [[p|] q]; cbn; [|split; reflexivity].
    destruct (MessageType_eqb (type (heap w p)) Control);
      split; reflexivity.
  - unfold peek, bind, get.
    destruct (Queue.peek (mRecvQueue (self w))) as [p|];
      [|split; reflexivity].
    destruct (MessageType_eqb (type (heap w p)) Control);
      split; reflexivity.
Qed.

Lemma step_keeps_closed (c : Call)
    (w : @World Handler Transport RecvQueue App) :
  closedOnce w /\ mIsClosed (self w) = true ->
  closedOnce (step IsRtcp RTC_ENABLE_MEDIA c w)
  /\ mIsClosed (self (step IsRtcp RTC_ENABLE_MEDIA c w)) = true.
Proof.
  intros [Honce Hcl].
  assert (Hdec : c = CallClose \/ c <> CallClose)
    by (destruct c; (now left) || (right; discriminate)).
  destruct Hdec as [-> | Hne].
  - cbn [step]. rewrite close_outcome. cbn [snd].
    unfold closedOnce in *. rewrite closedEvents_app.
    rewrite Hcl in *. cbn. rewrite Honce. split; reflexivity.
  - destruct (step_sameClosed c w Hne) as [H1 H2].
    unfold closedOnce in *. rewrite H1, H2, Hcl in *.
    split; [exact Honce | reflexivity].
Qed.

Lemma run_keeps_closed (calls : list Call)
    (w : @World Handler Transport RecvQueue App) :
  closedOnce w /\ mIsClosed (self w) = true ->
  closedOnce (run IsRtcp RTC_ENABLE_MEDIA calls w)
  /\ mIsClosed (self (run IsRtcp RTC_ENABLE_MEDIA calls w)) = true.
Proof.
  revert w. induction calls as [|c calls IH]; intros w Hw; [exact Hw|].
  cbn. apply IH. now apply step_keeps_closed.
Qed.

(** C4. [close()] returns, leaves the track closed, and fires "closed"
    only if the track was not closed before; called again at once it
    changes nothing.  From a track whose "closed" events agree with its
    flag (as on a new track, with neither), after [close()] and whatever
    calls follow, further [close()] calls among them, the "closed" event
    has fired exactly once, the track is still closed, and every
    [outgoing()] fails with the track-closed error. *)
Theorem close_fires_closed_once (w : @World Handler Transport RecvQueue App) :
  let w1 := snd (close w) in
  close w = (Return tt, w1)
  /\ mIsClosed (self w1) = true
  /\ events w1 = events w ++ (if mIsClosed (self w) then [] else [Closed])
  /\ close w1 = (Return tt, w1)
  /\ (closedOnce w ->
      forall calls : list Call,
        let w2 := run IsRtcp RTC_ENABLE_MEDIA calls w1 in
        closedEvents w2 = 1%nat
        /\ mIsClosed (self w2) = true
        /\ forall message,
             outgoing IsRtcp RTC_ENABLE_MEDIA message w2
             = (Throw TrackClosed, w2)).
Proof.
  cbv zeta. rewrite (close_outcome w). cbn [snd].
  split; [reflexivity|]. split; [reflexivity|]. split; [reflexivity|].
  split.
  - rewrite close_outcome. cbn. now rewrite app_nil_r.
  - intros Honce calls.
    set (w1 := mkWorld _ _ _ _ _).
    assert (Hw1 : closedOnce w1 /\ mIsClosed (self w1) = true).
    { split; [|reflexivity]. unfold closedOnce, w1 in *.
      rewrite closedEvents_app. cbn. rewrite Honce.
      now destruct (mIsClosed (self w)). }
    destruct (run_keeps_closed calls w1 Hw1) as [Ho Hc].
    split; [unfold closedOnce in Ho; now rewrite Hc in Ho|].
    split; [exact Hc|].
    intros message. now apply outgoing_closed.
Qed.

End Closing.

Lemma close_fires_closed_once_witness :
  let IsRtcp := Rtp.IsRtcp_by_payload_type in
  let w := Scenario.world Scenario.Fanout (Scenario.heapOf Scenario.plainRtp)
             1024 None Description.SendRecv in
  let w2 := run IsRtcp true
              [CallClose; CallIncoming (Some 0%nat); CallClose; CallClose]
              (snd (close w)) in
  events (snd (close w)) = [Closed]
  /\ closedEvents w2 = 1%nat
  /\ outgoing IsRtcp true 0%nat w2 = (Throw TrackClosed, w2).
Proof.
  intros IsRtcp w w2.
  destruct (close_fires_closed_once IsRtcp true w) as (_ & _ & Hev & _ & Hrun).
  split; [exact Hev|].
  destruct (Hrun eq_refl
              [CallClose; CallIncoming (Some 0%nat); CallClose; CallClose])
    as (Hone & _ & Hout).
  split; [exact Hone | exact (Hout 0%nat)].
Defined.

(** ** Peeking *)

Section Peeking.

Context {Handler Transport RecvQueue App : Type}.
Context {queueOps : Queue.Ops RecvQueue}.

(** [peek()] leaves the track, and so the queue with its [amount()] and
    [size()], the counters and the events as they are. *)
Lemma peek_keeps_queue (w : @World Handler Transport RecvQueue App) :
  self (snd (peek w)) = self w
  /\ availableAmount (snd (peek w)) = availableAmount w
  /\ Queue.size (mRecvQueue (self (snd (peek w))))
     = Queue.size (mRecvQueue (self w))
  /\ events (snd (peek w)) = events w.
Proof.
  unfold peek, bind, get, availableAmount.
  destruct (Queue.peek (mRecvQueue (self w))) as [p|];
    [|repeat split].
  destruct (MessageType_eqb (type (heap w p)) Control); repeat split.
Qed.

(** A Control packet at the front is copied: nothing changes. *)
Lemma peek_control_front
    (w : @World Handler Transport RecvQueue App) (p : loc) :
  Queue.peek (mRecvQueue (self w)) = Some p ->
  type (heap w p) = Control ->
  peek w = (Return (Some (Binary (data (heap w p)))), w).
Proof.
  intros Hp Hk. unfold peek, bind, get. now rewrite Hp, Hk.
Qed.

(** A Data packet at the front is moved from: [peek()] returns its bytes
    and leaves the packet, still queued, with none. *)
Lemma peek_data_front (w : @World Handler Transport RecvQueue App) (p : loc) :
  Queue.peek (mRecvQueue (self w)) = Some p ->
  type (heap w p) = Data ->
  fst (peek w) = Return (Some (Binary (data (heap w p))))
  /\ Queue.peek (mRecvQueue (self (snd (peek w)))) = Some p
  /\ data (heap (snd (peek w)) p) = []
  /\ forall q, q <> p -> heap (snd (peek w)) q = heap w q.
Proof.
  intros Hp Hk. unfold peek, bind, get. rewrite Hp, Hk. cbn.
  rewrite Hp. split; [reflexivity|]. split; [reflexivity|].
  unfold heap_set. rewrite Nat.eqb_refl. split; [reflexivity|].
  intros q Hq. apply Nat.eqb_neq in Hq. now rewrite Hq.
Qed.

End Peeking.

(** C2 (the source does not do this).  A three-byte Data packet arrives on
    a RecvOnly track and is queued.  [peek()] returns its three bytes and
    leaves [amount()] and [size()] as they were, but the queued packet is
    left with no bytes: the [receive()] that follows returns an empty
    message, where a [receive()] without the [peek()] returns the three
    bytes. *)
Theorem peek_empties_front_data_packet :
  let arrived :=
    snd (incoming true (Some 0%nat)
           (Scenario.world Scenario.Fanout Scenario.threeByteHeap 1024 None
              Description.RecvOnly)) in
  let peeked := snd (peek arrived) in
  Queue.peek (mRecvQueue (self arrived)) = Some 0%nat
  /\ heap arrived 0%nat = mkMessage [0; 2; 3] Data 0
  /\ fst (peek arrived) = Return (Some (Binary [0; 2; 3]))
  /\ availableAmount peeked = availableAmount arrived
  /\ availableAmount peeked = 3
  /\ Queue.size (mRecvQueue (self peeked)) = 1
  /\ Queue.peek (mRecvQueue (self peeked)) = Some 0%nat
  /\ heap peeked 0%nat = mkMessage [] Data 0
  /\ fst (receive peeked) = Return (Some (Binary []))
  /\ fst (receive arrived) = Return (Some (Binary [0; 2; 3])).
Proof.
  cbv zeta. repeat split; reflexivity.
Qed.


(** * Further properties of the track *)

(** ** The tagger on packets with a whole header *)

(** X1. Whatever the track's mid and mid extension id, [tagWithMid] changes
    nothing about a packet of at least [sizeof(RtpHeader)] bytes, nor about
    the rest of the world: the tagging code sits behind the test
    [message->size() < sizeof(RtpHeader)]. *)
Theorem tagWithMid_skips_packets_with_whole_header
    {Handler Transport RecvQueue App : Type} (IsRtcp : binary -> bool)
    (sizeof_RtpHeader : Z)
    (w : @World Handler Transport RecvQueue App) (message : loc) :
  sizeof_RtpHeader <= size (data (heap w message)) ->
  exists w', tagWithMid IsRtcp sizeof_RtpHeader message w = Some w'
             /\ sameWorld w w'
             /\ data (heap w' message) = data (heap w message).
Proof.
  intros Hsz.
  destruct (tagWithMid_of_unchanged_bytes IsRtcp sizeof_RtpHeader w message)
    as (w' & Hrun & Hsame).
  { now apply tagWithMid_bytes_full_header. }
  exists w'. split; [exact Hrun|]. split; [exact Hsame|].
  destruct Hsame as (_ & Hheap & _). now rewrite Hheap.
Qed.

Lemma tagWithMid_skips_packets_with_whole_header_witness :
  let w := Scenario.world Scenario.Fanout
             (Scenario.heapOf Scenario.plainMedia) 1024 None
             Description.SendOnly in
  exists w', tagWithMid Rtp.IsRtcp_by_payload_type Rtp.sizeof_RtpHeader
               0%nat w = Some w'
             /\ sameWorld w w'
             /\ data (heap w' 0%nat) = Scenario.plainMedia.
Proof.
  intros w.
  apply (tagWithMid_skips_packets_with_whole_header
           Rtp.IsRtcp_by_payload_type Rtp.sizeof_RtpHeader w 0%nat).
  vm_compute. discriminate.
Defined.

(** ** Sending without a handler *)

Section DirectSending.

Context {Handler Transport RecvQueue App : Type}.
Context {handlerOps : MediaHandler Handler}
        {transportOps : DtlsSrtpTransport Transport}
        {queueOps : Queue.Ops RecvQueue}.
Variable IsRtcp : binary -> bool.
Variable RTC_ENABLE_MEDIA : bool.

(** Without a handler, [reclassifyRtcp] leaves the packet with its bytes
    and DSCP and with the kind it has at the gate. *)
Lemma reclassifyRtcp_no_handler
    (w : @World Handler Transport RecvQueue App) (p : loc) :
  let w1 := snd (reclassifyRtcp IsRtcp (getMediaHandler w) p w) in
  self w1 = self w
  /\ COUNTER_MEDIA_BAD_DIRECTION w1 = COUNTER_MEDIA_BAD_DIRECTION w
  /\ COUNTER_QUEUE_FULL w1 = COUNTER_QUEUE_FULL w
  /\ events w1 = events w
  /\ heap w1 p = mkMessage (data (heap w p)) (outgoingKind IsRtcp w p)
                   (dscp (heap w p))
  /\ forall q, q <> p -> heap w1 q = heap w q.
Proof.
  unfold reclassifyRtcp, outgoingKind, bind, get, getMediaHandler.
  destruct (match mMediaHandler (self w) with None => true | Some _ => false end
            && IsRtcp (data (heap w p))); cbn.
  - repeat split; unfold heap_set.
    + now rewrite Nat.eqb_refl.
    + intros q Hq. apply Nat.eqb_neq in Hq. now rewrite Hq.
  - repeat split. now destruct (heap w p).
Qed.

(** X2. On a track that is not closed and has no handler, a packet that
    passes the direction gate cannot be sent before a transport is
    attached: [outgoing] throws the exception of a closed track (or, when
    media support is compiled out, the one that says so, transport or not).
    Nothing is counted and no event fires; the packet keeps its bytes and
    has the kind it had at the gate. *)
Theorem outgoing_without_transport_throws
    (w : @World Handler Transport RecvQueue App) (p : loc) :
  mIsClosed (self w) = false ->
  getMediaHandler w = None ->
  forbidsSending (direction w)
    && negb (MessageType_eqb (outgoingKind IsRtcp w p) Control) = false ->
  RTC_ENABLE_MEDIA = false \/ mDtlsSrtpTransport (self w) = None ->
  let w' := snd (outgoing IsRtcp RTC_ENABLE_MEDIA p w) in
  fst (outgoing IsRtcp RTC_ENABLE_MEDIA p w)
  = Throw (if RTC_ENABLE_MEDIA then TrackClosed else MediaUnsupported)
  /\ self w' = self w
  /\ COUNTER_MEDIA_BAD_DIRECTION w' = COUNTER_MEDIA_BAD_DIRECTION w
  /\ COUNTER_QUEUE_FULL w' = COUNTER_QUEUE_FULL w
  /\ events w' = events w
  /\ heap w' p = mkMessage (data (heap w p)) (outgoingKind IsRtcp w p)
                   (dscp (heap w p)).
Proof.
  intros Hopen Hnone Hgate Hcannot. cbv zeta.
  rewrite (outgoing_open IsRtcp RTC_ENABLE_MEDIA w p Hopen). cbv zeta.
  rewrite Hgate.
  destruct (reclassifyRtcp_no_handler w p)
    as (Hself & Hbad & Hfull & Hev & Hp & _).
  set (w1 := snd (reclassifyRtcp IsRtcp (getMediaHandler w) p w)) in *.
  rewrite Hnone. unfold sendThrough, transportSend.
  destruct RTC_ENABLE_MEDIA.
  - destruct Hcannot as [Hoff | Htr]; [discriminate|].
    unfold bind, get. rewrite Hself, Htr. cbn.
    repeat split; assumption.
  - cbn. repeat split; assumption.
Qed.

(** X3. On a track that is not closed and has no handler, with a transport
    attached, a packet that passes the direction gate goes to the transport
    once, marked: Control if it is structurally RTCP, with DSCP 46 on an
    audio track and 36 on any other.  [outgoing] returns what [sendMedia]
    returned for it, the track keeps the transport as [sendMedia] left it,
    and nothing else about the track changes, nor any other message. *)
Theorem outgoing_marks_and_sends
    (w : @World Handler Transport RecvQueue App) (p : loc)
    (transport : Transport) :
  RTC_ENABLE_MEDIA = true ->
  mIsClosed (self w) = false ->
  getMediaHandler w = None ->
  mDtlsSrtpTransport (self w) = Some transport ->
  forbidsSending (direction w)
    && negb (MessageType_eqb (outgoingKind IsRtcp w p) Control) = false ->
  let marked := markedForSend IsRtcp w p in
  let w' := snd (outgoing IsRtcp RTC_ENABLE_MEDIA p w) in
  fst (outgoing IsRtcp RTC_ENABLE_MEDIA p w)
  = Return (fst (sendMedia marked transport))
  /\ heap w' p = marked
  /\ (forall q, q <> p -> heap w' q = heap w q)
  /\ self w' = set_mDtlsSrtpTransport
                 (Some (snd (sendMedia marked transport))) (self w)
  /\ COUNTER_MEDIA_BAD_DIRECTION w' = COUNTER_MEDIA_BAD_DIRECTION w
  /\ COUNTER_QUEUE_FULL w' = COUNTER_QUEUE_FULL w
  /\ events w' = events w.
Proof.
  intros Hon Hopen Hnone Htr Hgate. cbv zeta.
  rewrite (outgoing_open IsRtcp RTC_ENABLE_MEDIA w p Hopen). cbv zeta.
  rewrite Hgate.
  destruct (reclassifyRtcp_no_handler w p)
    as (Hself & Hbad & Hfull & Hev & Hp & Hother).
  set (w1 := snd (reclassifyRtcp IsRtcp (getMediaHandler w) p w)) in *.
  rewrite Hnone. unfold sendThrough, transportSend. rewrite Hon.
  unfold bind, get. rewrite Hself, Htr. cbn.
  rewrite Hp. cbn [data type dscp].
  change (mkMessage (data (heap w p)) (outgoingKind IsRtcp w p)
            (if String.eqb (Description.type (mMediaDescription (self w))) "audio"
             then 46 else 36))
    with (markedForSend IsRtcp w p).
  destruct (sendMedia (markedForSend IsRtcp w p) transport) as [sent tr'].
  cbn. rewrite Hself.
  split; [reflexivity|].
  split; [unfold heap_set; now rewrite Nat.eqb_refl|].
  split.
  { intros q Hq. unfold heap_set.
    apply Nat.eqb_neq in Hq. rewrite Hq. now apply Hother, Nat.eqb_neq. }
  repeat split; assumption.
Qed.

Lemma outgoing_receiveSideKept
    (w : @World Handler Transport RecvQueue App) (p : loc) :
  receiveSideKept w (snd (outgoing IsRtcp RTC_ENABLE_MEDIA p w)).
Proof.
  assert (Hframe : forall a b : @World Handler Transport RecvQueue App,
             sendFrame a b -> receiveSideKept a b).
  { intros a b (_ & H2 & H3 & H4 & H5 & H6 & H7 & H8).
    unfold receiveSideKept. repeat split; assumption. }
  destruct (mIsClosed (self w)) eqn:E.
  - rewrite (outgoing_closed IsRtcp RTC_ENABLE_MEDIA w p E).
    apply Hframe, sendFrame_refl.
  - rewrite (outgoing_open IsRtcp RTC_ENABLE_MEDIA w p E). cbv zeta.
    destruct (reclassifyRtcp_outcome IsRtcp (getMediaHandler w) p w)
      as (_ & Hf & _).
    destruct (forbidsSending (direction w)
              && negb (MessageType_eqb (outgoingKind IsRtcp w p) Control)).
    + apply Hframe in Hf. exact Hf.
    + apply Hframe.
      eapply sendFrame_trans; [exact Hf | apply sendThrough_frame].
Qed.

(** X10. Whatever its outcome, a value or an exception, [outgoing] fires no
    event and leaves the receive queue, the closed flag, the callbacks, the
    description with its mid extension id, and the full-queue counter as
    they were. *)
Theorem outgoing_keeps_receive_side
    (w : @World Handler Transport RecvQueue App) (p : loc) :
  receiveSideKept w (snd (outgoing IsRtcp RTC_ENABLE_MEDIA p w)).
Proof. apply outgoing_receiveSideKept. Qed.

End DirectSending.

Lemma outgoing_without_transport_throws_witness :
  let w := Scenario.world Scenario.Fanout (Scenario.heapOf Scenario.rtcpRR)
             1024 None Description.RecvOnly in
  fst (outgoing Rtp.IsRtcp_by_payload_type true 0%nat w) = Throw TrackClosed
  /\ heap (snd (outgoing Rtp.IsRtcp_by_payload_type true 0%nat w)) 0%nat
     = mkMessage Scenario.rtcpRR Control 0.
Proof.
  intros w.
  destruct (outgoing_without_transport_throws Rtp.IsRtcp_by_payload_type true
              w 0%nat) as (Hthrow & _ & _ & _ & _ & Hpacket).
  - reflexivity.
  - reflexivity.
  - reflexivity.
  - right. reflexivity.
  - split; [exact Hthrow | exact Hpacket].
Defined.

Lemma outgoing_marks_and_sends_witness :
  let w := snd (open (Some ([] : Scenario.Wire))
                  (Scenario.world Scenario.Fanout
                     (Scenario.heapOf Scenario.plainRtp) 1024 None
                     Description.SendOnly)) in
  let w' := snd (outgoing Rtp.IsRtcp_by_payload_type true 0%nat w) in
  fst (outgoing Rtp.IsRtcp_by_payload_type true 0%nat w) = Return true
  /\ heap w' 0%nat = mkMessage Scenario.plainRtp Data 46
  /\ mDtlsSrtpTransport (self w')
     = Some [mkMessage Scenario.plainRtp Data 46].
Proof.
  intros w w'.
  destruct (outgoing_marks_and_sends Rtp.IsRtcp_by_payload_type true
              w 0%nat [] eq_refl eq_refl eq_refl eq_refl eq_refl)
    as (Hret & Hpacket & _ & Hself & _).
  split; [exact Hret|]. split; [exact Hpacket|].
  unfold w'. rewrite Hself. reflexivity.
Defined.

(** ** Sending through a handler *)

Section HandlerSending.

Context {Handler Transport RecvQueue App : Type}.
Context {handlerOps : MediaHandler Handler}
        {transportOps : DtlsSrtpTransport Transport}
        {queueOps : Queue.Ops RecvQueue}.
Variable IsRtcp : binary -> bool.
Variable RTC_ENABLE_MEDIA : bool.

Lemma bind_ret_r {A : Type}
    (c : @M Handler Transport RecvQueue App A)
    (w : @World Handler Transport RecvQueue App) :
  bind c ret w = c w.
Proof. unfold bind, ret. now destruct (c w) as [[a|e] w1]. Qed.

Lemma bind_assoc {A B C : Type}
    (c : @M Handler Transport RecvQueue App A)
    (f : A -> @M Handler Transport RecvQueue App B)
    (g : B -> @M Handler Transport RecvQueue App C)
    (w : @World Handler Transport RecvQueue App) :
  bind (bind c f) g w = bind c (fun a => bind (f a) g) w.
Proof. unfold bind. now destruct (c w) as [[a|e] w1]. Qed.

Lemma bind_ext {A B : Type}
    (c : @M Handler Transport RecvQueue App A)
    (f g : A -> @M Handler Transport RecvQueue App B)
    (w : @World Handler Transport RecvQueue App) :
  (forall a w1, f a w1 = g a w1) -> bind c f w = bind c g w.
Proof.
  intros Hfg. unfold bind. destruct (c w) as [[a|e] w1];
    [apply Hfg | reflexivity].
Qed.

(** The value of the sending loop is the value of its last send. *)
Lemma sendEach_last (ms : list loc) (m : loc) (r : bool)
    (w : @World Handler Transport RecvQueue App) :
  sendEach RTC_ENABLE_MEDIA (ms ++ [m]) r w
  = bind (sendEach RTC_ENABLE_MEDIA ms r)
      (fun _ => transportSend RTC_ENABLE_MEDIA m) w.
Proof.
  revert r w. induction ms as [|x ms IH]; intros r w.
  - cbn [app sendEach].
    change (bind (transportSend RTC_ENABLE_MEDIA m) (fun r' => ret r') w
            = bind (ret r) (fun _ => transportSend RTC_ENABLE_MEDIA m) w).
    unfold bind at 2. cbn. apply bind_ret_r.
  - cbn [app sendEach]. rewrite bind_assoc.
    apply bind_ext. intros r' w1. apply IH.
Qed.

(** X4. With a handler attached, on a track that is not closed, a packet
    that passes the direction gate goes through the outbound chain; what
    the chain passed to its send callback is sent first, then the batch in
    order.  [outgoing] returns [false] when the chain leaves an empty
    batch, and otherwise the value of the last send of the batch alone: the
    values of the sends before it are dropped. *)
Theorem outgoing_returns_last_send
    (w : @World Handler Transport RecvQueue App) (p : loc) (h : Handler) :
  mIsClosed (self w) = false ->
  getMediaHandler w = Some h ->
  forbidsSending (direction w)
    && negb (MessageType_eqb (type (heap w p)) Control) = false ->
  let c := outgoingChain [p] (heap w) h in
  let prepared :=
    bind (installChainResult c)
      (fun _ => sendNow RTC_ENABLE_MEDIA (chain_sent c)) in
  (chain_messages c = [] ->
     outgoing IsRtcp RTC_ENABLE_MEDIA p w
     = bind prepared (fun _ => ret false) w)
  /\ (forall ms m, chain_messages c = ms ++ [m] ->
        outgoing IsRtcp RTC_ENABLE_MEDIA p w
        = bind (bind prepared (fun _ => sendEach RTC_ENABLE_MEDIA ms false))
            (fun _ => transportSend RTC_ENABLE_MEDIA m) w).
Proof.
  intros Hopen Hh Hgate. cbv zeta.
  assert (Hkind : outgoingKind IsRtcp w p = type (heap w p)).
  { unfold outgoingKind. unfold getMediaHandler in Hh. now rewrite Hh. }
  assert (Hout : outgoing IsRtcp RTC_ENABLE_MEDIA p w
                 = sendThrough RTC_ENABLE_MEDIA (Some h) p w).
  { rewrite (outgoing_open IsRtcp RTC_ENABLE_MEDIA w p Hopen). cbv zeta.
    rewrite Hkind, Hgate, Hh. reflexivity. }
  set (c := outgoingChain [p] (heap w) h).
  change (sendThrough RTC_ENABLE_MEDIA (Some h) p w)
    with (bind (installChainResult c)
            (fun _ => bind (sendNow RTC_ENABLE_MEDIA (chain_sent c))
                        (fun _ => sendEach RTC_ENABLE_MEDIA
                                    (chain_messages c) false)) w) in Hout.
  split.
  - intros Hempty. rewrite Hout, Hempty. cbn [sendEach].
    now rewrite bind_assoc.
  - intros ms m Hms. rewrite Hout, Hms.
    rewrite !bind_assoc.
    apply bind_ext. intros u w1.
    apply bind_ext. intros u' w2. apply sendEach_last.
Qed.

End HandlerSending.

Lemma outgoing_returns_last_send_witness :
  let hp : Heap := fun q => if Nat.eqb q 0 then mkMessage [] Data 0
                            else mkMessage [1; 2; 3] Data 0 in
  let h := Scenario.mkFanout [1%nat] in
  let w : @World Scenario.Fanout Scenario.Picky BoundedByteQueue.t unit :=
    mkWorld
      (mkTrack None (Some (Scenario.mkPicky [])) (Some h)
         (Scenario.audio "0" Description.SendRecv) (Some 1) false
         (BoundedByteQueue.new 1024) None)
      hp 0 0 [] in
  outgoingChain [0%nat] hp h = mkChainResult [0; 1]%nat [] hp h
  /\ fst (transportSend true 0%nat w) = Return false
  /\ fst (outgoing Rtp.IsRtcp_by_payload_type true 0%nat w) = Return true.
Proof.
  intros hp h w.
  split; [reflexivity|]. split; [reflexivity|].
  destruct (outgoing_returns_last_send Rtp.IsRtcp_by_payload_type true
              w 0%nat h eq_refl eq_refl eq_refl) as (_ & Hlast).
  rewrite (Hlast [0%nat] 1%nat eq_refl). reflexivity.
Defined.

(** ** A closed track *)

Section AfterClose.

Context {Handler Transport RecvQueue App : Type}.
Context {handlerOps : MediaHandler Handler}
        {transportOps : DtlsSrtpTransport Transport}
        {queueOps : Queue.Ops RecvQueue}.
Variable IsRtcp : binary -> bool.
Variable RTC_ENABLE_MEDIA : bool.

(** X5. [incoming] does not look at the closed flag.  After [close()],
    which also detaches the handler, a packet that passes the direction
    gate is still pushed to the receive queue when the queue is not full,
    and [triggerAvailable] is still called with the new item count; when
    the queue is full the packet is counted as a full-queue drop. *)
Theorem incoming_after_close_still_queues
    (w : @World Handler Transport RecvQueue App) (p : loc) :
  forbidsReceiving (direction w)
    && negb (MessageType_eqb (type (heap w p)) Control) = false ->
  let closed := snd (close w) in
  let q := mRecvQueue (self w) in
  let w' := snd (incoming RTC_ENABLE_MEDIA (Some p) closed) in
  mIsClosed (self closed) = true
  /\ fst (incoming RTC_ENABLE_MEDIA (Some p) closed) = Return tt
  /\ mIsClosed (self w') = true
  /\ (Queue.full q = false ->
        mRecvQueue (self w') = Queue.push (amountFunction w) p q
        /\ events w'
           = events closed
               ++ [Available (Queue.size (Queue.push (amountFunction w) p q))]
        /\ COUNTER_QUEUE_FULL w' = COUNTER_QUEUE_FULL w)
  /\ (Queue.full q = true ->
        mRecvQueue (self w') = q
        /\ events w' = events closed
        /\ COUNTER_QUEUE_FULL w' = COUNTER_QUEUE_FULL w + 1).
Proof.
  intros Hgate. cbv zeta. rewrite close_outcome. cbn [snd].
  set (closed := mkWorld _ _ _ _ _).
  destruct (incoming_permitted RTC_ENABLE_MEDIA closed p Hgate) as [Heq _].
  rewrite Heq.
  change (bind (incomingBatch RTC_ENABLE_MEDIA p) admitBatch closed)
    with (admitBatch [p] closed).
  cbn [admitBatch]. unfold bind, get.
  change (mRecvQueue (self closed)) with (mRecvQueue (self w)).
  destruct (Queue.full (mRecvQueue (self w))) eqn:Efull; cbn.
  - repeat split; try reflexivity; intros; discriminate.
  - repeat split; try reflexivity; intros; discriminate.
Qed.

Lemma run_stays_closed (calls : list Call)
    (w : @World Handler Transport RecvQueue App) :
  mIsClosed (self w) = true ->
  mIsClosed (self (run IsRtcp RTC_ENABLE_MEDIA calls w)) = true.
Proof.
  revert w. induction calls as [|c calls IH]; intros w Hc; [exact Hc|].
  cbn. apply IH.
  assert (Hdec : c = CallClose \/ c <> CallClose)
    by (destruct c; (now left) || (right; discriminate)).
  destruct Hdec as [-> | Hne].
  - cbn [step]. now rewrite close_outcome.
  - destruct (step_sameClosed IsRtcp RTC_ENABLE_MEDIA c w Hne) as [H1 _].
    now rewrite H1.
Qed.

(** X6. Once closed, a track never reports open again: after [close()] and
    whatever calls follow, [isOpen()] is false; an [open(transport)] that
    comes then still stores the transport but fires no "open" event, and
    [isOpen()] stays false. *)
Theorem closed_track_never_opens
    (w : @World Handler Transport RecvQueue App) (calls : list Call)
    (transport : option Transport) :
  let w2 := run IsRtcp RTC_ENABLE_MEDIA calls (snd (close w)) in
  let w3 := snd (open transport w2) in
  isOpen RTC_ENABLE_MEDIA w2 = false
  /\ mDtlsSrtpTransport (self w3) = transport
  /\ events w3 = events w2
  /\ isOpen RTC_ENABLE_MEDIA w3 = false.
Proof.
  cbv zeta.
  assert (Hc : mIsClosed (self (run IsRtcp RTC_ENABLE_MEDIA calls
                                  (snd (close w)))) = true).
  { apply run_stays_closed. now rewrite close_outcome. }
  set (w2 := run IsRtcp RTC_ENABLE_MEDIA calls (snd (close w))) in *.
  unfold isOpen, open, bind, get. cbn. rewrite Hc. cbn.
  destruct RTC_ENABLE_MEDIA; repeat split; now rewrite Hc.
Qed.

End AfterClose.

(** ** Handler notification *)

Section Notification.

Context {Handler Transport RecvQueue App : Type}.
Context {handlerOps : MediaHandler Handler}
        {queueOps : Queue.Ops RecvQueue}.

(** X7. The attached handler always learns the description the track
    holds.  [setMediaHandler(handler)] stores the handler after one call of
    its [media] with the current description, and changes nothing else; a
    [setDescription] that returns has called [media] of the attached
    handler once, with the description as stored, that is, with the
    stream-identifier mapping in it. *)
Theorem handler_sees_stored_description
    (w : @World Handler Transport RecvQueue App) :
  (forall handler,
     setMediaHandler handler w
     = (Return tt,
        with_self
          (set_mMediaHandler (option_map (media (description w)) handler)
             (self w)) w))
  /\ (forall desc w',
        setDescription desc w = (Return tt, w') ->
        mMediaHandler (self w')
        = option_map (media (description w')) (mMediaHandler (self w))
        /\ Description.findExtId (description w') sdesMidExtUri
           = mSdesMidExtId (self w')
        /\ mSdesMidExtId (self w') <> None).
Proof.
  split.
  - intros [h|]; unfold setMediaHandler, bind, get; cbn;
      unfold with_self; cbn; reflexivity.
  - intros desc w'. unfold setDescription, bind, get.
    destruct (negb (String.eqb (Description.mid desc)
                      (Description.mid (mMediaDescription (self w)))));
      [discriminate|].
    destruct (Description.findExtId desc sdesMidExtUri) as [j|] eqn:Efind;
      cbn; destruct (mMediaHandler (self w)) as [h|] eqn:Eh; cbn;
      intros [= <-]; cbn; rewrite ?Eh; cbn;
      (split; [reflexivity|]);
      (split; [first [exact Efind | now apply findExtId_addExtMap]
              | discriminate]).
Qed.

End Notification.

Lemma handler_sees_stored_description_witness :
  let h := Scenario.mkFanout [7%nat] in
  let w := Scenario.world Scenario.Fanout (Scenario.heapOf []) 1024 (Some h)
             Description.SendRecv in
  let desc := Scenario.audio "0" Description.RecvOnly in
  let w' := snd (setDescription desc w) in
  mMediaHandler (self w') = Some (media (description w') h)
  /\ Description.findExtId (description w') sdesMidExtUri = Some 1.
Proof.
  intros h w desc w'.
  destruct (handler_sees_stored_description w) as (_ & Hset).
  destruct (Hset desc w' eq_refl) as (Hh & Hfind & _).
  split; [exact Hh | rewrite Hfind; reflexivity].
Defined.

Lemma incoming_after_close_still_queues_witness :
  let w := Scenario.world Scenario.Fanout Scenario.threeByteHeap 1024
             (Some (Scenario.mkFanout [1%nat])) Description.RecvOnly in
  let w' := snd (incoming true (Some 0%nat) (snd (close w))) in
  BoundedByteQueue.mQueue (mRecvQueue (self w')) = [0%nat]
  /\ events w' = [Closed; Available 1].
Proof.
  intros w w'.
  destruct (incoming_after_close_still_queues true w 0%nat eq_refl)
    as (_ & _ & _ & Hroom & _).
  destruct (Hroom eq_refl) as (Hq & Hev & _).
  split; [exact (f_equal BoundedByteQueue.mQueue Hq) | exact Hev].
Defined.

(** ** What stays fixed over the life of a track *)

Section Lifetime.

Context {Handler Transport RecvQueue App : Type}.
Context {handlerOps : MediaHandler Handler}
        {transportOps : DtlsSrtpTransport Transport}
        {queueOps : Queue.Ops RecvQueue}.
Variable IsRtcp : binary -> bool.
Variable RTC_ENABLE_MEDIA : bool.

(** Only [setDescription] writes the description and the mid extension
    id. *)
Lemma step_keeps_description (c : Call)
    (w : @World Handler Transport RecvQueue App) :
  (forall desc, c <> CallSetDescription desc) ->
  mMediaDescription (self (step IsRtcp RTC_ENABLE_MEDIA c w))
  = mMediaDescription (self w)
  /\ mSdesMidExtId (self (step IsRtcp RTC_ENABLE_MEDIA c w))
     = mSdesMidExtId (self w).
Proof.
  intros Hc.
  assert (Hframe : forall a b : @World Handler Transport RecvQueue App,
             sendFrame a b ->
             mMediaDescription (self b) = mMediaDescription (self a)
             /\ mSdesMidExtId (self b) = mSdesMidExtId (self a)).
  { intros a b (_ & _ & _ & _ & _ & _ & H7 & H8). now split. }
  destruct c as [desc|handler|transport| |message|message| |]; cbn [step].
  - now destruct (Hc desc).
  - unfold setMediaHandler, bind, get. destruct handler; split; reflexivity.
  - unfold open, bind, get. cbn.
    destruct (mIsClosed (self w)); split; reflexivity.
  - rewrite close_outcome. split; reflexivity.
  - destruct message as [p|]; [|split; reflexivity].
    destruct (forbidsReceiving (direction w)
              && negb (MessageType_eqb (type (heap w p)) Control)) eqn:Eg.
    + rewrite (incoming_forbidden RTC_ENABLE_MEDIA w p Eg).
      split; reflexivity.
    + destruct (incoming_permitted RTC_ENABLE_MEDIA w p Eg) as [Heq _].
      rewrite Heq. unfold bind.
      pose proof (incomingBatch_frame RTC_ENABLE_MEDIA p w) as Hf.
      apply Hframe in Hf.
      destruct (incomingBatch RTC_ENABLE_MEDIA p w) as [[ms|e] w1];
        cbn in *; [|exact Hf].
      destruct (admitBatch_admission ms w1) as [_ (admitted & Hadm)].
      destruct Hadm as (_ & _ & Hself & _).
      rewrite Hself. exact Hf.
  - pose proof (outgoing_receiveSideKept IsRtcp RTC_ENABLE_MEDIA w message)
      as (_ & _ & _ & _ & Hd & Hi & _).
    now split.
  - unfold receive, bind, get.
    destruct (Queue.pop (amountFunction w) (mRecvQueue (self w)))
      as [[p|] q]; cbn; [|split; reflexivity].
    destruct (MessageType_eqb (type (heap w p)) Control); split; reflexivity.
  - unfold peek, bind, get.
    destruct (Queue.peek (mRecvQueue (self w))) as [p|];
      [|split; reflexivity].
    destruct (MessageType_eqb (type (heap w p)) Control); split; reflexivity.
Qed.

(** [setDescription] either throws the mismatch and leaves the world as it
    is, or returns. *)
Lemma setDescription_outcome (desc : Description.Media)
    (w : @World Handler Transport RecvQueue App) :
  setDescription desc w = (Throw ConfigurationMismatch, w)
  \/ exists w', setDescription desc w = (Return tt, w').
Proof.
  unfold setDescription, bind, get.
  destruct (negb (String.eqb (Description.mid desc)
                    (Description.mid (mMediaDescription (self w)))));
    [now left|right].
  destruct (Description.findExtId desc sdesMidExtUri); cbn;
    destruct (mMediaHandler (self w)); cbn; eexists; reflexivity.
Qed.

Lemma step_keeps_mid (c : Call) (w : @World Handler Transport RecvQueue App) :
  mid (step IsRtcp RTC_ENABLE_MEDIA c w) = mid w.
Proof.
  assert (Hdec : (exists desc, c = CallSetDescription desc)
                 \/ forall desc, c <> CallSetDescription desc).
  { destruct c; try (right; intros d; discriminate). left. eauto. }
  destruct Hdec as [(desc & ->) | Hne].
  - cbn [step].
    destruct (setDescription_outcome desc w) as [Hthrow | (w' & Hret)].
    + now rewrite Hthrow.
    + rewrite Hret. cbn [snd].
      destruct (setDescription_stores desc w w' Hret)
        as (Hmid & stored & i & h' & Hself & _ & _ & _ & _ & Hcase).
      unfold mid at 1. rewrite Hself. cbn.
      destruct (Description.findExtId desc sdesMidExtUri).
      * destruct Hcase as [-> _]. exact Hmid.
      * destruct Hcase as [_ ->]. exact Hmid.
  - destruct (step_keeps_description c w Hne) as [Hd _].
    unfold mid. now rewrite Hd.
Qed.

(** X8. The mid of a track never changes: whatever calls are made, in
    whatever order and with whatever outcome, [mid()] returns afterwards
    what it returned before. *)
Theorem mid_never_changes (calls : list Call)
    (w : @World Handler Transport RecvQueue App) :
  mid (run IsRtcp RTC_ENABLE_MEDIA calls w) = mid w.
Proof.
  revert w. induction calls as [|c calls IH]; intros w; [reflexivity|].
  change (mid (run IsRtcp RTC_ENABLE_MEDIA calls
                 (step IsRtcp RTC_ENABLE_MEDIA c w)) = mid w).
  rewrite IH. apply step_keeps_mid.
Qed.

Lemma step_keeps_mid_extension_id (c : Call)
    (w : @World Handler Transport RecvQueue App) :
  mSdesMidExtId (self w) <> None ->
  mSdesMidExtId (self (step IsRtcp RTC_ENABLE_MEDIA c w)) <> None.
Proof.
  intros Hset.
  assert (Hdec : (exists desc, c = CallSetDescription desc)
                 \/ forall desc, c <> CallSetDescription desc).
  { destruct c; try (right; intros d; discriminate). left. eauto. }
  destruct Hdec as [(desc & ->) | Hne].
  - cbn [step].
    destruct (setDescription_outcome desc w) as [Hthrow | (w' & Hret)].
    + now rewrite Hthrow.
    + rewrite Hret. cbn [snd].
      destruct (setDescription_stores desc w w' Hret)
        as (_ & stored & i & h' & Hself & _).
      rewrite Hself. discriminate.
  - destruct (step_keeps_description c w Hne) as [_ Hi]. now rewrite Hi.
Qed.

(** X9. A constructed track always has a mid extension id: after a
    constructor or a [setDescription] that returned, and whatever calls
    follow, [mSdesMidExtId] holds a value, so the early return of
    [tagWithMid] for a missing id is never taken on such a track. *)
Theorem mid_extension_id_stays_set
    (RECV_QUEUE_LIMIT : Z) (defaultMedia : Description.Media)
    (pc : option PeerConnection) (desc : Description.Media)
    (w w' : @World Handler Transport RecvQueue App) (calls : list Call) :
  setDescription desc w = (Return tt, w')
  \/ Track_ctor RECV_QUEUE_LIMIT defaultMedia pc desc w = (Return tt, w') ->
  exists i,
    mSdesMidExtId (self (run IsRtcp RTC_ENABLE_MEDIA calls w')) = Some i.
Proof.
  intros Hbuilt.
  assert (Hset : mSdesMidExtId (self w') <> None).
  { destruct Hbuilt as [Hset | Hctor].
    - destruct (setDescription_stores desc w w' Hset)
        as (_ & stored & i & h' & Hself & _).
      rewrite Hself. discriminate.
    - destruct (Track_ctor_inv RECV_QUEUE_LIMIT defaultMedia pc desc w w' Hctor)
        as (w1 & Hset & ->).
      destruct (setDescription_stores desc _ w1 Hset)
        as (_ & stored & i & h' & Hself & _).
      destruct (Description.Direction_eqb (direction w1) Description.SendOnly);
        cbn; rewrite Hself; discriminate. }
  clear Hbuilt.
  assert (Hrun : mSdesMidExtId (self (run IsRtcp RTC_ENABLE_MEDIA calls w'))
                 <> None).
  { revert w' Hset. induction calls as [|c calls IH]; intros w' Hset;
      [exact Hset|].
    change (mSdesMidExtId
              (self (run IsRtcp RTC_ENABLE_MEDIA calls
                       (step IsRtcp RTC_ENABLE_MEDIA c w'))) <> None).
    apply IH. now apply step_keeps_mid_extension_id. }
  destruct (mSdesMidExtId (self (run IsRtcp RTC_ENABLE_MEDIA calls w')))
    as [i|]; [now exists i | congruence].
Qed.

End Lifetime.

Lemma mid_extension_id_stays_set_witness :
  let w0 := Scenario.world Scenario.Fanout (Scenario.heapOf Scenario.plainRtp)
              1024 None Description.SendRecv in
  let built := snd (Track_ctor 1024 (Scenario.audio "0" Description.Inactive)
                      None (Scenario.audio "0" Description.SendRecv) w0) in
  exists i,
    mSdesMidExtId
      (self (run Rtp.IsRtcp_by_payload_type true
               [CallIncoming (Some 0%nat); CallClose;
                CallSetDescription (Scenario.audio "1" Description.SendOnly)]
               built)) = Some i.
Proof.
  intros w0 built.
  apply (mid_extension_id_stays_set Rtp.IsRtcp_by_payload_type true 1024
           (Scenario.audio "0" Description.Inactive) None
           (Scenario.audio "0" Description.SendRecv) w0 built).
  right. reflexivity.
Defined.

(** ** From arrival to delivery *)

Section Delivery.

Context {Handler Transport RecvQueue App : Type}.
Context {handlerOps : MediaHandler Handler}
        {transportOps : DtlsSrtpTransport Transport}
        {queueOps : Queue.Ops RecvQueue}.
Variable IsRtcp : binary -> bool.
Variable RTC_ENABLE_MEDIA : bool.

(** X11. Arrival and delivery compose.  On a track without handler, a
    packet that passes the direction gate and finds the queue not full is
    handed out by the next [receive()] with the bytes it arrived with,
    provided the queue gives back what was pushed.  A Control packet is
    handed out by copy and the store is left as it was; any other packet is
    moved out, which leaves the message behind the pointer without bytes
    and every other message as it was. *)
Theorem incoming_then_receive_returns_packet
    (w : @World Handler Transport RecvQueue App) (p : loc) (q' : RecvQueue) :
  getMediaHandler w = None ->
  forbidsReceiving (direction w)
    && negb (MessageType_eqb (type (heap w p)) Control) = false ->
  Queue.full (mRecvQueue (self w)) = false ->
  Queue.pop (amountFunction w)
    (Queue.push (amountFunction w) p (mRecvQueue (self w))) = (Some p, q') ->
  let arrived := snd (incoming RTC_ENABLE_MEDIA (Some p) w) in
  let delivered := snd (receive arrived) in
  fst (receive arrived) = Return (Some (Binary (data (heap w p))))
  /\ mRecvQueue (self delivered) = q'
  /\ (type (heap w p) = Control -> heap delivered = heap w)
  /\ (type (heap w p) <> Control ->
        data (heap delivered p) = []
        /\ forall q, q <> p -> heap delivered q = heap w q).
Proof.
  intros Hnone Hgate Hroom Hpop. cbv zeta.
  destruct (incoming_permitted RTC_ENABLE_MEDIA w p Hgate) as [Heq _].
  assert (Hbatch : incomingBatch RTC_ENABLE_MEDIA p w = (Return [p], w)).
  { unfold incomingBatch, bind, get. now rewrite Hnone. }
  set (q1 := Queue.push (amountFunction w) p (mRecvQueue (self w))) in *.
  assert (Harr : incoming RTC_ENABLE_MEDIA (Some p) w
                 = (Return tt,
                    mkWorld (set_mRecvQueue q1 (self w)) (heap w)
                      (COUNTER_MEDIA_BAD_DIRECTION w) (COUNTER_QUEUE_FULL w)
                      (events w ++ [Available (Queue.size q1)]))).
  { rewrite Heq. unfold bind at 1. rewrite Hbatch.
    cbn [admitBatch]. unfold bind, get. rewrite Hroom. reflexivity. }
  rewrite Harr. cbn [snd].
  set (arrived := mkWorld _ _ _ _ _).
  assert (Hrecv : receive arrived
                  = if MessageType_eqb (type (heap w p)) Control
                    then (Return (Some (to_variant_copy (heap w p))),
                          with_self (set_mRecvQueue q' (self arrived)) arrived)
                    else (Return (Some (fst (to_variant_move (heap w p)))),
                          with_heap
                            (heap_set (heap w) p
                               (snd (to_variant_move (heap w p))))
                            (with_self (set_mRecvQueue q' (self arrived))
                               arrived))).
  { unfold receive, bind, get.
    change (Queue.pop (amountFunction arrived) (mRecvQueue (self arrived)))
      with (Queue.pop (amountFunction w) q1).
    rewrite Hpop. cbn.
    now destruct (MessageType_eqb (type (heap w p)) Control). }
  rewrite Hrecv.
  destruct (type (heap w p)) eqn:Ek; cbn.
  - split; [reflexivity|]. split; [reflexivity|].
    split; [discriminate|]. intros _. unfold heap_set.
    rewrite Nat.eqb_refl. split; [reflexivity|].
    intros q Hq. apply Nat.eqb_neq in Hq. now rewrite Hq.
  - split; [reflexivity|]. split; [reflexivity|].
    split; [reflexivity|]. intros Hk. now destruct Hk.
Qed.

End Delivery.

Lemma incoming_then_receive_returns_packet_witness :
  let w := Scenario.world Scenario.Fanout Scenario.threeByteHeap 1024 None
             Description.RecvOnly in
  let arrived := snd (incoming true (Some 4%nat) w) in
  fst (receive arrived) = Return (Some (Binary [4; 2; 3]))
  /\ data (heap (snd (receive arrived)) 4%nat) = [].
Proof.
  intros w arrived.
  destruct (incoming_then_receive_returns_packet true w 4%nat
              (BoundedByteQueue.mk 1024 0 []))
    as (Hret & _ & _ & Hmoved).
  - reflexivity.
  - reflexivity.
  - reflexivity.
  - reflexivity.
  - split; [exact Hret|].
    destruct Hmoved as [Hempty _]; [discriminate | exact Hempty].
Defined.

(** ** The drop counters *)

Section Counters.

Context {Handler Transport RecvQueue App : Type}.
Context {handlerOps : MediaHandler Handler}
        {transportOps : DtlsSrtpTransport Transport}
        {queueOps : Queue.Ops RecvQueue}.
Variable IsRtcp : binary -> bool.
Variable RTC_ENABLE_MEDIA : bool.

Lemma step_counters (c : Call) (w : @World Handler Transport RecvQueue App) :
  let w' := step IsRtcp RTC_ENABLE_MEDIA c w in
  (COUNTER_MEDIA_BAD_DIRECTION w' = COUNTER_MEDIA_BAD_DIRECTION w
   \/ COUNTER_MEDIA_BAD_DIRECTION w' = COUNTER_MEDIA_BAD_DIRECTION w + 1)
  /\ (COUNTER_QUEUE_FULL w' = COUNTER_QUEUE_FULL w
      \/ COUNTER_QUEUE_FULL w' = COUNTER_QUEUE_FULL w + 1)
  /\ ((forall m, c <> CallIncoming m) ->
      COUNTER_QUEUE_FULL w' = COUNTER_QUEUE_FULL w)
  /\ ((forall m, c <> CallIncoming m) -> (forall m, c <> CallOutgoing m) ->
      COUNTER_MEDIA_BAD_DIRECTION w' = COUNTER_MEDIA_BAD_DIRECTION w).
Proof.
  assert (Hsame : forall w' : @World Handler Transport RecvQueue App,
             COUNTER_MEDIA_BAD_DIRECTION w' = COUNTER_MEDIA_BAD_DIRECTION w ->
             COUNTER_QUEUE_FULL w' = COUNTER_QUEUE_FULL w ->
             (COUNTER_MEDIA_BAD_DIRECTION w' = COUNTER_MEDIA_BAD_DIRECTION w
              \/ COUNTER_MEDIA_BAD_DIRECTION w'
                 = COUNTER_MEDIA_BAD_DIRECTION w + 1)
             /\ (COUNTER_QUEUE_FULL w' = COUNTER_QUEUE_FULL w
                 \/ COUNTER_QUEUE_FULL w' = COUNTER_QUEUE_FULL w + 1)
             /\ ((forall m, c <> CallIncoming m) ->
                 COUNTER_QUEUE_FULL w' = COUNTER_QUEUE_FULL w)
             /\ ((forall m, c <> CallIncoming m) ->
                 (forall m, c <> CallOutgoing m) ->
                 COUNTER_MEDIA_BAD_DIRECTION w'
                 = COUNTER_MEDIA_BAD_DIRECTION w)).
  { intros w' Hb Hf. repeat split; auto. }
  cbv zeta.
  destruct c as [desc|handler|transport| |message|message| |]; cbn [step].
  - destruct (setDescription_outcome desc w) as [Hthrow | (w' & Hret)].
    + rewrite Hthrow. now apply Hsame.
    + rewrite Hret. cbn [snd].
      destruct (setDescription_stores desc w w' Hret)
        as (_ & stored & i & h' & _ & _ & Hb & Hf & _).
      now apply Hsame.
  - apply Hsame; unfold setMediaHandler, bind, get; now destruct handler.
  - apply Hsame; unfold open, bind, get; cbn;
      now destruct (mIsClosed (self w)).
  - rewrite close_outcome. now apply Hsame.
  - destruct message as [p|]; [|now apply Hsame].
    destruct (forbidsReceiving (direction w)
              && negb (MessageType_eqb (type (heap w p)) Control)) eqn:Eg.
    + rewrite (incoming_forbidden RTC_ENABLE_MEDIA w p Eg). cbn.
      split; [now right|]. split; [now left|].
      split; [reflexivity|]. intros Hne. now destruct (Hne (Some p)).
    + destruct (incoming_permitted RTC_ENABLE_MEDIA w p Eg) as [Heq Hbad].
      split; [now left|].
      assert (Hfull : COUNTER_QUEUE_FULL
                        (snd (incoming RTC_ENABLE_MEDIA (Some p) w))
                      = COUNTER_QUEUE_FULL w
                      \/ COUNTER_QUEUE_FULL
                           (snd (incoming RTC_ENABLE_MEDIA (Some p) w))
                         = COUNTER_QUEUE_FULL w + 1).
      { rewrite Heq. unfold bind.
        pose proof (incomingBatch_frame RTC_ENABLE_MEDIA p w) as Hf.
        destruct (incomingBatch RTC_ENABLE_MEDIA p w) as [[ms|e] w1];
          cbn in *; [|left; apply Hf].
        destruct Hf as (_ & Hf & _).
        destruct (admitBatch_admission ms w1) as [_ (admitted & Hadm)].
        destruct Hadm as ((abandoned & _ & Hnone & Hsome) & _).
        destruct abandoned as [|x rest].
        - left. rewrite (Hnone eq_refl). exact Hf.
        - right. destruct Hsome as [_ Hc]; [discriminate|].
          rewrite Hc, Hf. reflexivity. }
      split; [exact Hfull|].
      split; [intros Hne; now destruct (Hne (Some p))|].
      intros Hne. now destruct (Hne (Some p)).
  - pose proof (outgoing_receiveSideKept IsRtcp RTC_ENABLE_MEDIA w message)
      as (_ & _ & _ & _ & _ & _ & Hfull).
    assert (Hbad : COUNTER_MEDIA_BAD_DIRECTION
                     (snd (outgoing IsRtcp RTC_ENABLE_MEDIA message w))
                   = COUNTER_MEDIA_BAD_DIRECTION w
                   \/ COUNTER_MEDIA_BAD_DIRECTION
                        (snd (outgoing IsRtcp RTC_ENABLE_MEDIA message w))
                      = COUNTER_MEDIA_BAD_DIRECTION w + 1).
    { destruct (mIsClosed (self w)) eqn:E.
      - left. now rewrite (outgoing_closed IsRtcp RTC_ENABLE_MEDIA w message E).
      - destruct (forbidsSending (direction w)
                  && negb (MessageType_eqb (outgoingKind IsRtcp w message)
                             Control)) eqn:Eg.
        + right.
          rewrite (outgoing_open IsRtcp RTC_ENABLE_MEDIA w message E).
          cbv zeta. rewrite Eg. unfold droppedBadDirection.
          cbn [snd COUNTER_MEDIA_BAD_DIRECTION].
          destruct (reclassifyRtcp_outcome IsRtcp (getMediaHandler w)
                      message w) as (_ & (Hb & _) & _).
          now rewrite Hb.
        + left.
          now apply outgoing_keeps_counter_unless_forbidden. }
    split; [exact Hbad|]. split; [now left|]. split; [intros _; exact Hfull|].
    intros _ Hne. now destruct (Hne message).
  - apply Hsame; unfold receive, bind, get;
      destruct (Queue.pop (amountFunction w) (mRecvQueue (self w)))
        as [[p|] q]; cbn; try reflexivity;
      now destruct (MessageType_eqb (type (heap w p)) Control).
  - apply Hsame; unfold peek, bind, get;
      destruct (Queue.peek (mRecvQueue (self w))) as [p|]; try reflexivity;
      now destruct (MessageType_eqb (type (heap w p)) Control).
Qed.

(** X12. The two drop counters only grow, and by at most one per call:
    over any sequence of calls neither counter goes down, and neither goes
    up by more than the number of calls, however many packets a transform
    chain puts into a batch.  Only [incoming] raises the full-queue
    counter, and only [incoming] and [outgoing] the bad-direction
    counter. *)
Theorem drop_counters_grow_by_at_most_one_per_call
    (calls : list Call) (w : @World Handler Transport RecvQueue App) :
  let w' := run IsRtcp RTC_ENABLE_MEDIA calls w in
  COUNTER_MEDIA_BAD_DIRECTION w <= COUNTER_MEDIA_BAD_DIRECTION w'
    <= COUNTER_MEDIA_BAD_DIRECTION w + Z.of_nat (List.length calls)
  /\ COUNTER_QUEUE_FULL w <= COUNTER_QUEUE_FULL w'
       <= COUNTER_QUEUE_FULL w + Z.of_nat (List.length calls)
  /\ ((forall m, ~ In (CallIncoming m) calls) ->
      COUNTER_QUEUE_FULL w' = COUNTER_QUEUE_FULL w)
  /\ ((forall m, ~ In (CallIncoming m) calls) ->
      (forall m, ~ In (CallOutgoing m) calls) ->
      COUNTER_MEDIA_BAD_DIRECTION w' = COUNTER_MEDIA_BAD_DIRECTION w).
Proof.
  revert w. induction calls as [|c calls IH]; intros w.
  - cbn. repeat split; lia.
  - change (run IsRtcp RTC_ENABLE_MEDIA (c :: calls) w)
      with (run IsRtcp RTC_ENABLE_MEDIA calls
              (step IsRtcp RTC_ENABLE_MEDIA c w)).
    destruct (IH (step IsRtcp RTC_ENABLE_MEDIA c w))
      as (Hb & Hf & Hfi & Hbi).
    destruct (step_counters c w) as (Sb & Sf & Sfi & Sbi).
    cbv zeta in *.
    assert (Hlen : Z.of_nat (List.length (c :: calls))
                   = Z.of_nat (List.length calls) + 1)
      by (cbn [List.length]; lia).
    rewrite Hlen.
    split; [destruct Sb; lia|]. split; [destruct Sf; lia|].
    split.
    + intros Hno. rewrite Hfi, Sfi; [reflexivity| |].
      * intros m ->. apply (Hno m). now left.
      * intros m Hin. apply (Hno m). now right.
    + intros Hno Hno'. rewrite Hbi, Sbi; [reflexivity| | | |].
      * intros m ->. apply (Hno m). now left.
      * intros m ->. apply (Hno' m). now left.
      * intros m Hin. apply (Hno m). now right.
      * intros m Hin. apply (Hno' m). now right.
Qed.

End Counters.

Lemma drop_counters_grow_by_at_most_one_per_call_witness :
  let w := Scenario.world Scenario.Fanout Scenario.threeByteHeap 3
             (Some (Scenario.mkFanout [1; 2; 3]%nat)) Description.RecvOnly in
  let calls := [CallIncoming (Some 0%nat); CallOutgoing 0%nat; CallPeek] in
  let quiet := [CallPeek; CallClose; CallReceive] in
  COUNTER_QUEUE_FULL (run Rtp.IsRtcp_by_payload_type true calls w) <= 3
  /\ COUNTER_QUEUE_FULL (run Rtp.IsRtcp_by_payload_type true quiet w) = 0
  /\ COUNTER_MEDIA_BAD_DIRECTION
       (run Rtp.IsRtcp_by_payload_type true quiet w) = 0.
Proof.
  intros w calls quiet.
  destruct (drop_counters_grow_by_at_most_one_per_call
              Rtp.IsRtcp_by_payload_type true calls w) as (_ & Hfull & _).
  destruct (drop_counters_grow_by_at_most_one_per_call
              Rtp.IsRtcp_by_payload_type true quiet w) as (_ & _ & Hf & Hb).
  split; [exact (proj2 Hfull)|].
  split.
  - apply Hf. intros m [Hc | [Hc | [Hc | []]]]; discriminate.
  - apply Hb; intros m [Hc | [Hc | [Hc | []]]]; discriminate.
Defined.

(** ** Peeking at a Control packet *)

Section PeekControl.

Context {Handler Transport RecvQueue App : Type}.
Context {queueOps : Queue.Ops RecvQueue}.

(** X13. With a Control packet at the front of the queue, [peek()] returns
    its bytes and changes nothing at all, and the [receive()] that follows
    returns the same bytes and leaves the packet in the store as it was
    (the queue popping the packet it showed). *)
Theorem peek_control_then_receive
    (w : @World Handler Transport RecvQueue App) (p : loc) (q' : RecvQueue) :
  Queue.peek (mRecvQueue (self w)) = Some p ->
  Queue.pop (amountFunction w) (mRecvQueue (self w)) = (Some p, q') ->
  type (heap w p) = Control ->
  peek w = (Return (Some (Binary (data (heap w p)))), w)
  /\ receive (snd (peek w))
     = (Return (Some (Binary (data (heap w p)))),
        with_self (set_mRecvQueue q' (self w)) w)
  /\ fst (receive (snd (peek w))) = fst (peek w).
Proof.
  intros Hpeek Hpop Hk.
  pose proof (peek_control_front w p Hpeek Hk) as Hp.
  rewrite Hp. cbn [fst snd].
  assert (Hr : receive w
               = (Return (Some (Binary (data (heap w p)))),
                  with_self (set_mRecvQueue q' (self w)) w)).
  { unfold receive, bind, get. rewrite Hpop. cbn. now rewrite Hk. }
  rewrite Hr. repeat split.
Qed.

End PeekControl.

Lemma peek_control_then_receive_witness :
  let arrived :=
    snd (incoming true (Some 0%nat)
           (Scenario.world Scenario.Fanout
              (fun _ => mkMessage Scenario.rtcpRR Control 0) 1024 None
              Description.SendOnly)) in
  fst (peek arrived) = Return (Some (Binary Scenario.rtcpRR))
  /\ fst (receive (snd (peek arrived))) = Return (Some (Binary Scenario.rtcpRR))
  /\ data (heap (snd (receive (snd (peek arrived)))) 0%nat) = Scenario.rtcpRR.
Proof.
  intros arrived.
  destruct (peek_control_then_receive arrived 0%nat
              (BoundedByteQueue.mk 1024 0 []))
    as (Hpeek & Hrecv & _).
  - reflexivity.
  - reflexivity.
  - reflexivity.
  - rewrite Hrecv, Hpeek. repeat split.
Defined.
